(** * streamxr: multi-view rendering of a GLB asset (render_views.py)

    A shallow embedding of [render_views.py].  numpy's float64 scalars are
    read as real numbers ([R]): [np.sin], [np.cos], [np.pi] and
    [np.linalg.norm] become [sin], [cos], [PI] and the square root of the
    sum of squares.  Calls into pyrender, PIL and the file system are
    recorded as events of a world; the places where those calls can raise
    are decided by an environment the theorems quantify over. *)

From Stdlib Require Import Reals Lra Psatz List Arith Lia String Ascii ZArith Bool.
From Stdlib Require Import Decimal DecimalNat DecimalString.
From Stdlib Require Import NArith.
Import ListNotations.

Local Open Scope R_scope.

(** ** 3-vectors (numpy arrays of shape (3,)) *)

Record vec3 : Type := mkVec { vx : R; vy : R; vz : R }.

Definition vzero : vec3 := mkVec 0 0 0.

Definition vadd (a b : vec3) : vec3 :=
  mkVec (vx a + vx b) (vy a + vy b) (vz a + vz b).

Definition vsub (a b : vec3) : vec3 :=
  mkVec (vx a - vx b) (vy a - vy b) (vz a - vz b).

Definition vneg (a : vec3) : vec3 := mkVec (- vx a) (- vy a) (- vz a).

(** [v / k] for an array [v] and a scalar [k]. *)
Definition vdiv (a : vec3) (k : R) : vec3 := mkVec (vx a / k) (vy a / k) (vz a / k).

Definition dot (a b : vec3) : R := vx a * vx b + vy a * vy b + vz a * vz b.

(** [np.cross] on two 3-vectors. *)
Definition cross (a b : vec3) : vec3 :=
  mkVec (vy a * vz b - vz a * vy b)
        (vz a * vx b - vx a * vz b)
        (vx a * vy b - vy a * vx b).

(** [np.linalg.norm] on a 3-vector. *)
Definition norm (a : vec3) : R := sqrt (dot a a).

(** ** 4x4 matrices (numpy arrays of shape (4,4)), as rows of entries *)

Definition matrix : Type := list (list R).

(** [np.eye(4)]. *)
Definition eye4 : matrix :=
  [ [1; 0; 0; 0];
    [0; 1; 0; 0];
    [0; 0; 1; 0];
    [0; 0; 0; 1] ].

(** Assignment to one entry of a row; the column indices the program uses
    are the constants 0..3, always in range. *)
Fixpoint set_nth (j : nat) (x : R) (row : list R) : list R :=
  match row, j with
  | [], _ => []
  | _ :: tl, O => x :: tl
  | hd :: tl, S j' => hd :: set_nth j' x tl
  end.

(** [m[:3, j] = v]: the first three rows receive the components of [v] in
    column [j]; the fourth row is left alone. *)
Definition set_col3 (j : nat) (v : vec3) (m : matrix) : matrix :=
  match m with
  | r0 :: r1 :: r2 :: rest =>
      set_nth j (vx v) r0 :: set_nth j (vy v) r1 :: set_nth j (vz v) r2 :: rest
  | _ => m
  end.

(** [m[r, c]]. *)
Definition mget (m : matrix) (r c : nat) : R := nth c (nth r m []) 0.

(** Column [j] of the upper-left 3x3 block. *)
Definition col3 (m : matrix) (j : nat) : vec3 :=
  mkVec (mget m 0 j) (mget m 1 j) (mget m 2 j).

(** Determinant of the upper-left 3x3 block. *)
Definition det3 (m : matrix) : R :=
  mget m 0 0 * (mget m 1 1 * mget m 2 2 - mget m 1 2 * mget m 2 1)
  - mget m 0 1 * (mget m 1 0 * mget m 2 2 - mget m 1 2 * mget m 2 0)
  + mget m 0 2 * (mget m 1 0 * mget m 2 1 - mget m 1 1 * mget m 2 0).

(** ** look_at (render_views.py, lines 17-33) *)

Definition look_at (eye target up : vec3) : matrix :=
  let f := vsub target eye in
  let f := vdiv f (norm f) in
  let s := cross f up in
  let s := vdiv s (norm s) in
  let u := cross s f in
  let m := eye4 in
  let m := set_col3 0 s m in
  let m := set_col3 1 u m in
  let m := set_col3 2 (vneg f) m in
  let m := set_col3 3 eye m in
  m.

(** The words of the specification for the look-at builder. *)
Definition normalize (v : vec3) : vec3 := vdiv v (norm v).

Definition spec_forward (eye target : vec3) : vec3 := normalize (vsub target eye).
Definition spec_right (eye target up : vec3) : vec3 :=
  normalize (cross (spec_forward eye target) up).
Definition spec_trueUp (eye target up : vec3) : vec3 :=
  cross (spec_right eye target up) (spec_forward eye target).

(** The matrix whose rotation columns are [a], [b], [c] and whose
    translation column is [t]. *)
Definition of_columns (a b c t : vec3) : matrix :=
  [ [vx a; vx b; vx c; vx t];
    [vy a; vy b; vy c; vy t];
    [vz a; vz b; vz c; vz t];
    [0; 0; 0; 1] ].

(** Preconditions of the look-at builder. *)
Definition look_at_pre (eye target up : vec3) : Prop :=
  target <> eye /\ cross (vsub target eye) up <> vzero.

(** Orthonormality of the rotation block, exactly and up to a tolerance. *)
Definition orthonormal (m : matrix) : Prop :=
  dot (col3 m 0) (col3 m 1) = 0 /\
  dot (col3 m 0) (col3 m 2) = 0 /\
  dot (col3 m 1) (col3 m 2) = 0 /\
  norm (col3 m 0) = 1 /\
  norm (col3 m 1) = 1 /\
  norm (col3 m 2) = 1 /\
  det3 m = 1.

Definition within (tol x y : R) : Prop := Rabs (x - y) <= tol.

Definition orthonormal_within (tol : R) (m : matrix) : Prop :=
  within tol (dot (col3 m 0) (col3 m 1)) 0 /\
  within tol (dot (col3 m 0) (col3 m 2)) 0 /\
  within tol (dot (col3 m 1) (col3 m 2)) 0 /\
  within tol (norm (col3 m 0)) 1 /\
  within tol (norm (col3 m 1)) 1 /\
  within tol (norm (col3 m 2)) 1 /\
  within tol (det3 m) 1.

(** ** Errors *)

(** The exceptions the program can end with.  The program has no [raise]
    and no [try] of its own: every exception comes out of a subscript, a
    numpy call or an external call, and ends the run. *)
Inductive error : Type :=
| IndexError          (* list subscript out of range *)
| TypeError           (* [None] subscripted, or used as a subscript *)
| BufferSizeError     (* [np.frombuffer]: size not a multiple of the element size *)
| ReshapeError        (* [reshape(-1, 3)]: size not a multiple of 3 *)
| ZeroSizeReduction   (* [min(axis=0)] of an array without rows *)
| DirectoryIOFailure  (* [output_dir.mkdir] *)
| SetupFailure        (* pyrender scene, lights, camera or renderer *)
| RenderFailure (i : nat)     (* [renderer.render] on frame [i] *)
| ImageIOFailure (i : nat)    (* [img.save] on frame [i] *)
| ManifestIOFailure           (* [open] / [json.dump] of transforms.json *)
| CleanupFailure.             (* [renderer.delete] *)

Definition result (A : Type) : Type := (error + A)%type.

Definition rbind {A B : Type} (r : result A) (k : A -> result B) : result B :=
  match r with
  | inl e => inl e
  | inr a => k a
  end.

Declare Scope result_scope.
Delimit Scope result_scope with result.
Notation "x <- r ;; k" := (rbind r (fun x => k))
  (at level 61, r at next level, right associativity) : result_scope.

(** ** The asset container as pygltflib presents it *)

Record BufferView : Type := mkBufferView { byteOffset : nat; byteLength : nat }.

Record Accessor : Type := mkAccessor { bufferView : option nat; componentType : Z }.

Record Primitive : Type := mkPrimitive { POSITION : option nat; indices : option nat }.

Record Mesh : Type := mkMesh { primitives : list Primitive }.

Record GLTF2 : Type := mkGLTF2 {
  meshes : list Mesh;
  accessors : list Accessor;
  bufferViews : list BufferView;
  binary_blob : option (list Byte.byte)
}.

(** What [trimesh.Trimesh(vertices=..., faces=...)] is given. *)
Record Trimesh : Type := mkTrimesh {
  vertices : list vec3;
  faces : list (nat * nat * nat)
}.

(** [l[i]] on a Python list. *)
Definition subscript {A : Type} (l : list A) (i : nat) : result A :=
  match nth_error l i with
  | Some a => inr a
  | None => inl IndexError
  end.

(** [l[i]] where [i] may be [None]. *)
Definition subscript_opt {A : Type} (l : list A) (i : option nat) : result A :=
  match i with
  | Some k => subscript l k
  | None => inl TypeError
  end.

(** [blob[start : stop]] with [0 <= start]; Python clamps to the length. *)
Definition slice (blob : list Byte.byte) (start stop : nat) : list Byte.byte :=
  firstn (stop - start) (skipn start blob).

(** [binary_blob[view.byteOffset : view.byteOffset + view.byteLength]]. *)
Definition view_data (blob : option (list Byte.byte)) (view : BufferView)
  : result (list Byte.byte) :=
  match blob with
  | Some b => inr (slice b (byteOffset view) (byteOffset view + byteLength view))
  | None => inl TypeError
  end.

Fixpoint pairs {A : Type} (l : list A) : list (A * A) :=
  match l with
  | a :: b :: tl => (a, b) :: pairs tl
  | _ => []
  end.

Fixpoint quads {A : Type} (l : list A) : list (A * A * A * A) :=
  match l with
  | a :: b :: c :: d :: tl => (a, b, c, d) :: quads tl
  | _ => []
  end.

Fixpoint triples {A : Type} (l : list A) : list (A * A * A) :=
  match l with
  | a :: b :: c :: tl => (a, b, c) :: triples tl
  | _ => []
  end.

(** [a.reshape(-1, 3)] on a one-dimensional array. *)
Definition reshape3 {A : Type} (l : list A) : result (list (A * A * A)) :=
  if (List.length l mod 3 =? 0)%nat then inr (triples l) else inl ReshapeError.

Definition uint16_le (p : Byte.byte * Byte.byte) : nat :=
  let '(b0, b1) := p in
  N.to_nat (Byte.to_N b0 + 256 * Byte.to_N b1).

Definition uint32_le (q : Byte.byte * Byte.byte * Byte.byte * Byte.byte) : nat :=
  let '(b0, b1, b2, b3) := q in
  N.to_nat (Byte.to_N b0 + 256 * (Byte.to_N b1 + 256 * (Byte.to_N b2 + 256 * Byte.to_N b3))).

(** [np.frombuffer(data, dtype=np.uint16)]. *)
Definition frombuffer_uint16 (data : list Byte.byte) : result (list nat) :=
  if (List.length data mod 2 =? 0)%nat then inr (map uint16_le (pairs data))
  else inl BufferSizeError.

(** [np.frombuffer(data, dtype=np.uint32)]. *)
Definition frombuffer_uint32 (data : list Byte.byte) : result (list nat) :=
  if (List.length data mod 4 =? 0)%nat then inr (map uint32_le (quads data))
  else inl BufferSizeError.

Definition vec3_of_row (r : R * R * R) : vec3 :=
  let '(a, b, c) := r in mkVec a b c.

(** [np.arange(n)]. *)
Definition arange (n : nat) : list nat := seq 0 n.

Section Loader.
(** The value of four bytes read as an IEEE binary32 number. *)
Variable float32_le : Byte.byte * Byte.byte * Byte.byte * Byte.byte -> R.

(** [np.frombuffer(data, dtype=np.float32)]. *)
Definition frombuffer_float32 (data : list Byte.byte) : result (list R) :=
  if (List.length data mod 4 =? 0)%nat then inr (map float32_le (quads data))
  else inl BufferSizeError.

(** Lines 41-42: [gltf.meshes[0].primitives[0]]. *)
Definition first_primitive (gltf : GLTF2) : result Primitive :=
  (mesh <- subscript (meshes gltf) 0 ;;
   subscript (primitives mesh) 0)%result.

(** Lines 45-64: the vertex array. *)
Definition load_vertices (gltf : GLTF2) (primitive : Primitive) : result (list vec3) :=
  (pos_accessor <- subscript_opt (accessors gltf) (POSITION primitive) ;;
   let binary_blob := binary_blob gltf in
   pos_buffer_view <-
     match bufferView pos_accessor with
     | Some k => (bv <- subscript (bufferViews gltf) k ;; inr (Some bv))
     | None => inr None
     end ;;
   match pos_buffer_view with
   | Some bv =>
       pos_data <- view_data binary_blob bv ;;
       flat <- frombuffer_float32 pos_data ;;
       rows <- reshape3 flat ;;
       inr (map vec3_of_row rows)
   | None => inr [mkVec 0 0 0]
   end)%result.

(** Lines 66-86: the face-index array. *)
Definition load_indices (gltf : GLTF2) (primitive : Primitive) (vertices : list vec3)
  : result (list (nat * nat * nat)) :=
  (match indices primitive with
   | Some k =>
       idx_accessor <- subscript (accessors gltf) k ;;
       match bufferView idx_accessor with
       | Some v =>
           idx_buffer_view <- subscript (bufferViews gltf) v ;;
           idx_data <- view_data (binary_blob gltf) idx_buffer_view ;;
           if (componentType idx_accessor =? 5123)%Z
           then (flat <- frombuffer_uint16 idx_data ;; reshape3 flat)
           else (flat <- frombuffer_uint32 idx_data ;; reshape3 flat)
       | None => reshape3 (arange (List.length vertices))
       end
   | None => reshape3 (arange (List.length vertices))
   end)%result.

(** Line 89: the message evaluates [vertices.min(axis=0)] and
    [vertices.max(axis=0)], which raise on an array without rows. *)
Definition bounds_message (vertices : list vec3) : result unit :=
  match vertices with
  | [] => inl ZeroSizeReduction
  | _ :: _ => inr tt
  end.

(** [load_glb_with_pygltflib], lines 36-94, from the parsed container on. *)
Definition load_glb_with_pygltflib (gltf : GLTF2) : result Trimesh :=
  (primitive <- first_primitive gltf ;;
   vertices <- load_vertices gltf primitive ;;
   indices <- load_indices gltf primitive vertices ;;
   _ <- bounds_message vertices ;;
   inr (mkTrimesh vertices indices))%result.
End Loader.

(** The index fallback is taken: the primitive has no index accessor, or
    the index accessor has no bufferView. *)
Definition index_fallback (gltf : GLTF2) (primitive : Primitive) : Prop :=
  indices primitive = None \/
  exists k acc, indices primitive = Some k /\
                nth_error (accessors gltf) k = Some acc /\
                bufferView acc = None.

(** The position fallback is taken: the position accessor has no bufferView. *)
Definition position_fallback (gltf : GLTF2) (primitive : Primitive) : Prop :=
  exists k acc, POSITION primitive = Some k /\
                nth_error (accessors gltf) k = Some acc /\
                bufferView acc = None.

Definition sequential_face (k : nat) : nat * nat * nat :=
  (3 * k, 3 * k + 1, 3 * k + 2)%nat.

(** ** Bounding volume *)

Definition vmin (a b : vec3) : vec3 :=
  mkVec (Rmin (vx a) (vx b)) (Rmin (vy a) (vy b)) (Rmin (vz a) (vz b)).

Definition vmax (a b : vec3) : vec3 :=
  mkVec (Rmax (vx a) (vx b)) (Rmax (vy a) (vy b)) (Rmax (vz a) (vz b)).

(** Modelled from the spec: [mesh.bounds] is a property of the trimesh
    library, which is not part of the repository.  Following section 4.2
    it is the pair of the component-wise minimum and maximum over all
    vertices; trimesh gives [None] for a mesh without vertices. *)
Definition bounds (mesh : Trimesh) : option (vec3 * vec3) :=
  match vertices mesh with
  | [] => None
  | v :: vs => Some (fold_left vmin vs v, fold_left vmax vs v)
  end.

(** Lines 147-149. *)
Definition center_of (b : vec3 * vec3) : vec3 := vdiv (vadd (fst b) (snd b)) 2.
Definition size_of (b : vec3 * vec3) : R := norm (vsub (snd b) (fst b)).
Definition camera_distance_of (size : R) : R := size * 2.

(** [lo] is the component-wise minimum of [vs]. *)
Definition is_cw_min (lo : vec3) (vs : list vec3) : Prop :=
  (Forall (fun v => vx lo <= vx v) vs /\ Exists (fun v => vx v = vx lo) vs) /\
  (Forall (fun v => vy lo <= vy v) vs /\ Exists (fun v => vy v = vy lo) vs) /\
  (Forall (fun v => vz lo <= vz v) vs /\ Exists (fun v => vz v = vz lo) vs).

(** [hi] is the component-wise maximum of [vs]. *)
Definition is_cw_max (hi : vec3) (vs : list vec3) : Prop :=
  (Forall (fun v => vx v <= vx hi) vs /\ Exists (fun v => vx v = vx hi) vs) /\
  (Forall (fun v => vy v <= vy hi) vs /\ Exists (fun v => vy v = vy hi) vs) /\
  (Forall (fun v => vz v <= vz hi) vs /\ Exists (fun v => vz v = vz hi) vs).

(** ** The orbit (lines 159-172) *)

(** [theta] of frame [i] (line 159). *)
Definition azimuth (num_views i : nat) : R :=
  2 * PI * INR i / INR num_views.

(** [phi] of frame [i] (line 160). *)
Definition elevation (num_views i : nat) : R :=
  PI / 4 + (PI / 8) * sin (3 * PI * INR i / INR num_views).

(** [camera_pos] of frame [i] (lines 163-168). *)
Definition camera_pos (center : vec3) (camera_distance : R) (num_views i : nat) : vec3 :=
  let theta := azimuth num_views i in
  let phi := elevation num_views i in
  let x := camera_distance * sin phi * cos theta in
  let y := camera_distance * sin phi * sin theta in
  let z := camera_distance * cos phi in
  vadd center (mkVec x y z).

Definition up_vector : vec3 := mkVec 0 0 1.

(** [camera_pose] of frame [i] (lines 171-172). *)
Definition camera_pose (center : vec3) (camera_distance : R) (num_views i : nat) : matrix :=
  look_at (camera_pos center camera_distance num_views i) center up_vector.

(** The words of the specification for the trajectory. *)
Definition spec_azimuth (N i : nat) : R := 2 * PI * (INR i / INR N).
Definition spec_elevation (N i : nat) : R :=
  PI / 4 + (PI / 8) * sin (3 * PI * (INR i / INR N)).
Definition spec_camera_position (c : vec3) (s : R) (N i : nat) : vec3 :=
  let theta := spec_azimuth N i in
  let phi := spec_elevation N i in
  let d := 2 * s in
  mkVec (vx c + d * (sin phi * cos theta))
        (vy c + d * (sin phi * sin theta))
        (vz c + d * cos phi).
Definition spec_pose (c : vec3) (s : R) (N i : nat) : matrix :=
  look_at (spec_camera_position c s N i) c (mkVec 0 0 1).

(** ** Output names *)

Fixpoint zeros (n : nat) : string :=
  match n with
  | O => EmptyString
  | S k => String "0" (zeros k)
  end.

(** The format [{i:04d}] for [0 <= i]. *)
Definition format_04d (i : nat) : string :=
  let digits := NilZero.string_of_uint (Nat.to_uint i) in
  (zeros (4 - String.length digits) ++ digits)%string.

(** The number a string of decimal digits stands for. *)
Definition decimal_value (s : string) : option nat :=
  option_map Nat.of_uint (NilEmpty.uint_of_string s).

Definition image_name (i : nat) : string :=
  ("image_" ++ format_04d i ++ ".png")%string.

(** [pathlib]'s [dir / name]. *)
Definition path_join (dir name : string) : string := (dir ++ "/" ++ name)%string.

(** ** The manifest *)

Record frame : Type := mkFrame {
  file_path : string;
  transform_matrix : list (list R)
}.

Record manifest : Type := mkManifest {
  camera_angle_x : R;
  frames : list frame
}.

(** [ndarray.tolist()] on a two-dimensional array: the list of its rows. *)
Definition tolist (m : matrix) : list (list R) := m.

(** ** The world: what the run did to the scene and the file system *)

Inductive event : Type :=
| EvMkdir (dir : string)
| EvAddCamera (pose : matrix)
| EvRender (i : nat)
| EvSaveImage (path : string)
| EvRemoveCamera
| EvWriteManifest (path : string) (m : manifest).

Definition world : Type := list event.

(** Which external calls succeed. *)
Record env : Type := mkEnv {
  mkdir_ok : bool;
  setup_ok : bool;
  render_ok : nat -> bool;
  save_ok : nat -> bool;
  manifest_ok : bool;
  cleanup_ok : bool
}.

(** A computation changes the world and ends with a value or an exception;
    what was done before an exception stays done. *)
Definition M (A : Type) : Type := world -> result A * world.

Definition ret {A : Type} (a : A) : M A := fun w => (inr a, w).

Definition raise {A : Type} (e : error) : M A := fun w => (inl e, w).

Definition bind {A B : Type} (c : M A) (k : A -> M B) : M B :=
  fun w =>
    match c w with
    | (inl e, w') => (inl e, w')
    | (inr a, w') => k a w'
    end.

Definition emit (e : event) : M unit := fun w => (inr tt, w ++ [e]).

Definition lift {A : Type} (r : result A) : M A := fun w => (r, w).

(** An external call that either happens or raises. *)
Definition external (ok : bool) (e : event) (err : error) : M unit :=
  if ok then emit e else raise err.

Declare Scope run_scope.
Delimit Scope run_scope with run.
Notation "x <- c ;; k" := (bind c (fun x => k))
  (at level 61, c at next level, right associativity) : run_scope.
Notation "c ;; k" := (bind c (fun _ => k))
  (at level 61, right associativity) : run_scope.

(** [for i in range: acc = body i acc]. *)
Fixpoint for_each {S : Type} (body : nat -> S -> M S) (range : list nat) (acc : S) : M S :=
  match range with
  | [] => ret acc
  | i :: rest => (acc' <- body i acc ;; for_each body rest acc')%run
  end.

(** The manifest record of frame [i] (lines 187-190). *)
Definition transform_of (camera_pose : matrix) (i : nat) : frame :=
  {| file_path := ("./image_" ++ format_04d i ++ ".png")%string;
     transform_matrix := tolist camera_pose |}.

(** One iteration of the loop (lines 158-194). *)
Definition render_frame (E : env) (output_dir : string) (center : vec3)
    (camera_distance : R) (num_views : nat) (i : nat) (transforms : list frame)
  : M (list frame) :=
  (let camera_pose := camera_pose center camera_distance num_views i in
   emit (EvAddCamera camera_pose) ;;
   external (render_ok E i) (EvRender i) (RenderFailure i) ;;
   let img_path := path_join output_dir (image_name i) in
   external (save_ok E i) (EvSaveImage img_path) (ImageIOFailure i) ;;
   let transform := transform_of camera_pose i in
   let transforms := transforms ++ [transform] in
   emit EvRemoveCamera ;;
   ret transforms)%run.

(** An external call that leaves no trace in the world. *)
Definition check (ok : bool) (err : error) : M unit :=
  if ok then ret tt else raise err.

(** [render_glb_views] from the loaded mesh on (lines 116-210). *)
Definition render_mesh (E : env) (mesh : Trimesh) (output_dir : string) (num_views : nat)
  : M unit :=
  (check (setup_ok E) SetupFailure ;;
   bounds <- lift (match bounds mesh with
                   | Some b => inr b
                   | None => inl TypeError
                   end) ;;
   let center := center_of bounds in
   let size := size_of bounds in
   let camera_distance := camera_distance_of size in
   transforms <- for_each (render_frame E output_dir center camera_distance num_views)
                          (seq 0 num_views) [] ;;
   let transforms_data := {| camera_angle_x := PI / 3; frames := transforms |} in
   let transforms_path := path_join output_dir "transforms.json" in
   external (manifest_ok E) (EvWriteManifest transforms_path transforms_data)
            ManifestIOFailure ;;
   check (cleanup_ok E) CleanupFailure)%run.

(** [render_glb_views] (lines 97-210); [gltf] is the container found at
    [glb_path], [float32_le] the reading of a binary32 number.  The
    resolution only reaches the renderer's constructor and is left out. *)
Definition render_glb_views (float32_le : Byte.byte * Byte.byte * Byte.byte * Byte.byte -> R)
    (E : env) (gltf : GLTF2) (output_dir : string) (num_views : nat) : M unit :=
  (external (mkdir_ok E) (EvMkdir output_dir) DirectoryIOFailure ;;
   mesh <- lift (load_glb_with_pygltflib float32_le gltf) ;;
   render_mesh E mesh output_dir num_views)%run.

(** ** What a run shows *)

(** The result of a run started in the empty world, and the world it leaves. *)
Definition outcome {A : Type} (run : M A) : result A := fst (run []).
Definition final_world {A : Type} (run : M A) : world := snd (run []).

Definition saved_images (w : world) : list string :=
  flat_map (fun e => match e with EvSaveImage p => [p] | _ => [] end) w.

Definition manifest_writes (w : world) : list (string * manifest) :=
  flat_map (fun e => match e with EvWriteManifest p m => [(p, m)] | _ => [] end) w.

Definition attached_poses (w : world) : list matrix :=
  flat_map (fun e => match e with EvAddCamera p => [p] | _ => [] end) w.

Definition render_calls (w : world) : list nat :=
  flat_map (fun e => match e with EvRender i => [i] | _ => [] end) w.

(** Every external call of frame [i] succeeds. *)
Definition frame_ok (E : env) (i : nat) : bool := render_ok E i && save_ok E i.

(** The events of a frame that runs to its end. *)
Definition frame_events (output_dir : string) (center : vec3) (camera_distance : R)
    (num_views i : nat) : list event :=
  [ EvAddCamera (camera_pose center camera_distance num_views i);
    EvRender i;
    EvSaveImage (path_join output_dir (image_name i));
    EvRemoveCamera ].

(** The events of a frame that raises, and the exception. *)
Definition failed_frame_events (E : env) (center : vec3) (camera_distance : R)
    (num_views i : nat) : list event :=
  if render_ok E i
  then [ EvAddCamera (camera_pose center camera_distance num_views i); EvRender i ]
  else [ EvAddCamera (camera_pose center camera_distance num_views i) ].

Definition frame_error (E : env) (i : nat) : error :=
  if render_ok E i then ImageIOFailure i else RenderFailure i.

(** A matrix of 4 rows of 4 entries. *)
Definition is_4x4 (m : list (list R)) : Prop :=
  List.length m = 4%nat /\ Forall (fun row => List.length row = 4%nat) m.

(** The first frame of [range] on which an external call raises. *)
Fixpoint first_failure (E : env) (range : list nat) : option nat :=
  match range with
  | [] => None
  | i :: rest => if frame_ok E i then first_failure E rest else Some i
  end.

(** The frames of [range] that run to their end. *)
Fixpoint completed (E : env) (range : list nat) : list nat :=
  match range with
  | [] => []
  | i :: rest => if frame_ok E i then i :: completed E rest else []
  end.

(** The ways a run can end: the exception or normal end, and the world left. *)
Inductive run_end (float32_le : Byte.byte * Byte.byte * Byte.byte * Byte.byte -> R)
    (E : env) (gltf : GLTF2) (output_dir : string) (N : nat)
  : result unit -> world -> Prop :=
| end_mkdir :
    mkdir_ok E = false ->
    run_end float32_le E gltf output_dir N (inl DirectoryIOFailure) []
| end_load (e : error) :
    mkdir_ok E = true ->
    load_glb_with_pygltflib float32_le gltf = inl e ->
    run_end float32_le E gltf output_dir N (inl e) [EvMkdir output_dir]
| end_setup (mesh : Trimesh) :
    mkdir_ok E = true ->
    load_glb_with_pygltflib float32_le gltf = inr mesh ->
    setup_ok E = false ->
    run_end float32_le E gltf output_dir N (inl SetupFailure) [EvMkdir output_dir]
| end_bounds (mesh : Trimesh) :
    mkdir_ok E = true ->
    load_glb_with_pygltflib float32_le gltf = inr mesh ->
    setup_ok E = true ->
    bounds mesh = None ->
    run_end float32_le E gltf output_dir N (inl TypeError) [EvMkdir output_dir]
| end_frame (mesh : Trimesh) (b : vec3 * vec3) (j : nat) :
    mkdir_ok E = true ->
    load_glb_with_pygltflib float32_le gltf = inr mesh ->
    setup_ok E = true ->
    bounds mesh = Some b ->
    first_failure E (seq 0 N) = Some j ->
    run_end float32_le E gltf output_dir N (inl (frame_error E j))
      (EvMkdir output_dir
       :: flat_map (frame_events output_dir (center_of b)
                      (camera_distance_of (size_of b)) N) (seq 0 j)
       ++ failed_frame_events E (center_of b) (camera_distance_of (size_of b)) N j)
| end_manifest (mesh : Trimesh) (b : vec3 * vec3) :
    mkdir_ok E = true ->
    load_glb_with_pygltflib float32_le gltf = inr mesh ->
    setup_ok E = true ->
    bounds mesh = Some b ->
    first_failure E (seq 0 N) = None ->
    manifest_ok E = false ->
    run_end float32_le E gltf output_dir N (inl ManifestIOFailure)
      (EvMkdir output_dir
       :: flat_map (frame_events output_dir (center_of b)
                      (camera_distance_of (size_of b)) N) (seq 0 N))
| end_normal (mesh : Trimesh) (b : vec3 * vec3) :
    mkdir_ok E = true ->
    load_glb_with_pygltflib float32_le gltf = inr mesh ->
    setup_ok E = true ->
    bounds mesh = Some b ->
    first_failure E (seq 0 N) = None ->
    manifest_ok E = true ->
    cleanup_ok E = true ->
    run_end float32_le E gltf output_dir N (inr tt)
      (EvMkdir output_dir
       :: flat_map (frame_events output_dir (center_of b)
                      (camera_distance_of (size_of b)) N) (seq 0 N)
       ++ [EvWriteManifest (path_join output_dir "transforms.json")
             {| camera_angle_x := PI / 3;
                frames := map (fun i => transform_of
                                 (camera_pose (center_of b)
                                    (camera_distance_of (size_of b)) N i) i)
                              (seq 0 N) |}])
| end_cleanup (mesh : Trimesh) (b : vec3 * vec3) :
    mkdir_ok E = true ->
    load_glb_with_pygltflib float32_le gltf = inr mesh ->
    setup_ok E = true ->
    bounds mesh = Some b ->
    first_failure E (seq 0 N) = None ->
    manifest_ok E = true ->
    cleanup_ok E = false ->
    run_end float32_le E gltf output_dir N (inl CleanupFailure)
      (EvMkdir output_dir
       :: flat_map (frame_events output_dir (center_of b)
                      (camera_distance_of (size_of b)) N) (seq 0 N)
       ++ [EvWriteManifest (path_join output_dir "transforms.json")
             {| camera_angle_x := PI / 3;
                frames := map (fun i => transform_of
                                 (camera_pose (center_of b)
                                    (camera_distance_of (size_of b)) N i) i)
                              (seq 0 N) |}]).

(** ** Example inputs *)

(** The cube spanning [-1,-1,-1] to [1,1,1]: 8 vertices, 12 triangles. *)
Definition cube_vertices : list vec3 :=
  [ mkVec (-1) (-1) (-1); mkVec 1 (-1) (-1); mkVec 1 1 (-1); mkVec (-1) 1 (-1);
    mkVec (-1) (-1) 1;    mkVec 1 (-1) 1;    mkVec 1 1 1;    mkVec (-1) 1 1 ].

Definition cube_faces : list (nat * nat * nat) :=
  [ (0, 2, 1); (0, 3, 2); (4, 5, 6); (4, 6, 7); (0, 1, 5); (0, 5, 4);
    (2, 3, 7); (2, 7, 6); (1, 2, 6); (1, 6, 5); (0, 4, 7); (0, 7, 3) ]%nat.

Definition cube_mesh : Trimesh := mkTrimesh cube_vertices cube_faces.

(** Every external call succeeds. *)
Definition env_ok : env := mkEnv true true (fun _ => true) (fun _ => true) true true.

(** Saving the image of frame 1 raises; every other external call succeeds. *)
Definition env_save_fails_at_1 : env :=
  mkEnv true true (fun _ => true) (fun i => negb (i =? 1)%nat) true true.

(** A container whose position accessor has no bufferView and whose index
    buffer holds the one triangle (0, 0, 0) as unsigned shorts. *)
Definition point_gltf : GLTF2 :=
  mkGLTF2 [mkMesh [mkPrimitive (Some 0%nat) (Some 1%nat)]]
          [mkAccessor None 5126; mkAccessor (Some 0%nat) 5123]
          [mkBufferView 0 6]
          (Some [Byte.x00; Byte.x00; Byte.x00; Byte.x00; Byte.x00; Byte.x00]).

(** A container without index accessor whose position accessor has no
    bufferView. *)
Definition bare_gltf : GLTF2 :=
  mkGLTF2 [mkMesh [mkPrimitive (Some 0%nat) None]] [mkAccessor None 5126] [] None.

(** ** Further notions *)

(** [k * v] for a scalar [k] and an array [v]. *)
Definition vscale (k : R) (v : vec3) : vec3 := mkVec (k * vx v) (k * vy v) (k * vz v).

(** The entries of an array of shape (n, 3) in C order ([ravel]). *)
Definition flatten3 {A : Type} (rows : list (A * A * A)) : list A :=
  flat_map (fun r => let '(a, b, c) := r in [a; b; c]) rows.

(** The number of camera nodes in a scene that held [n] of them, after the
    events [w]: [scene.add(camera, ...)] adds one, [scene.remove_node]
    removes the one it is given. *)
Fixpoint cameras_attached (w : world) (n : nat) : nat :=
  match w with
  | [] => n
  | EvAddCamera _ :: rest => cameras_attached rest (S n)
  | EvRemoveCamera :: rest => cameras_attached rest (Nat.pred n)
  | _ :: rest => cameras_attached rest n
  end.

(** Every [renderer.render] of [w] finds exactly one camera in the scene. *)
Fixpoint one_camera_per_render (w : world) (n : nat) : bool :=
  match w with
  | [] => true
  | EvAddCamera _ :: rest => one_camera_per_render rest (S n)
  | EvRemoveCamera :: rest => one_camera_per_render rest (Nat.pred n)
  | EvRender _ :: rest => (n =? 1)%nat && one_camera_per_render rest n
  | _ :: rest => one_camera_per_render rest n
  end.

(** The script's entry point (lines 213-217); [gltf] is the container found
    at "public/models/helmet/high.glb". *)
Definition main (float32_le : Byte.byte * Byte.byte * Byte.byte * Byte.byte -> R)
    (E : env) (gltf : GLTF2) : M unit :=
  render_glb_views float32_le E gltf "public/models/helmet/renders" 100.

(** A container with one position buffer of 36 bytes, three vertices, and
    no index accessor. *)
Definition triangle_gltf : GLTF2 :=
  mkGLTF2 [mkMesh [mkPrimitive (Some 0%nat) None]]
          [mkAccessor (Some 0%nat) 5126]
          [mkBufferView 0 36]
          (Some (repeat Byte.x00 36)).

(** The value of four little-endian bytes read as an IEEE 754 binary32
    number: one sign bit, eight exponent bits, 23 fraction bits.  The
    infinities and NaN have no real value and are read as 0. *)
Definition binary32_le (q : Byte.byte * Byte.byte * Byte.byte * Byte.byte) : R :=
  let '(b0, b1, b2, b3) := q in
  let n := Z.of_N (Byte.to_N b0 + 256 * (Byte.to_N b1 + 256 * (Byte.to_N b2
                     + 256 * Byte.to_N b3))) in
  let sign := if (n / 2 ^ 31 =? 0)%Z then 1 else -1 in
  let e := ((n / 2 ^ 23) mod 256)%Z in
  let m := (n mod 2 ^ 23)%Z in
  if (e =? 0)%Z then sign * IZR m * powerRZ 2 (-149)
  else if (e =? 255)%Z then 0
  else sign * IZR (2 ^ 23 + m) * powerRZ 2 (e - 150).

(** The bytes of the binary32 numbers 0.0 and 1.0. *)
Definition bytes_0 : list Byte.byte := [Byte.x00; Byte.x00; Byte.x00; Byte.x00].
Definition bytes_1 : list Byte.byte := [Byte.x00; Byte.x00; Byte.x80; Byte.x3f].

(** A container holding the triangle (0,0,0), (1,0,0), (0,1,0) in its
    position buffer, without index accessor. *)
Definition unit_triangle_gltf : GLTF2 :=
  mkGLTF2 [mkMesh [mkPrimitive (Some 0%nat) None]]
          [mkAccessor (Some 0%nat) 5126]
          [mkBufferView 0 36]
          (Some (bytes_0 ++ bytes_0 ++ bytes_0 ++
                 bytes_1 ++ bytes_0 ++ bytes_0 ++
                 bytes_0 ++ bytes_1 ++ bytes_0)).

(** ** Vector algebra *)

Lemma vec3_eq (a b : vec3) :
  vx a = vx b -> vy a = vy b -> vz a = vz b -> a = b.
Proof. destruct a, b; simpl; intros; subst; reflexivity. Qed.

Lemma dot_self_nonneg (v : vec3) : 0 <= dot v v.
Proof. unfold dot. nra. Qed.

Lemma dot_self_pos (v : vec3) : v <> vzero -> 0 < dot v v.
Proof.
  intros Hv. destruct (Rle_lt_or_eq_dec _ _ (dot_self_nonneg v)) as [H | H]; [exact H |].
  exfalso. apply Hv. unfold dot in H.
  apply vec3_eq; simpl; nra.
Qed.

Lemma norm_pos (v : vec3) : v <> vzero -> 0 < norm v.
Proof. intros Hv. unfold norm. apply sqrt_lt_R0. now apply dot_self_pos. Qed.

Lemma norm_sq (v : vec3) : norm v * norm v = dot v v.
Proof. unfold norm. apply sqrt_sqrt. apply dot_self_nonneg. Qed.

Lemma dot_vdiv (a b : vec3) (k l : R) :
  k <> 0 -> l <> 0 -> dot (vdiv a k) (vdiv b l) = dot a b / (k * l).
Proof. intros Hk Hl. unfold dot, vdiv; simpl. field. split; assumption. Qed.

Lemma dot_vdiv_l (a b : vec3) (k : R) :
  k <> 0 -> dot (vdiv a k) b = dot a b / k.
Proof. intros Hk. unfold dot, vdiv; simpl. field. assumption. Qed.

Lemma normalize_unit (v : vec3) : v <> vzero -> dot (normalize v) (normalize v) = 1.
Proof.
  intros Hv. pose proof (norm_pos v Hv) as Hn.
  unfold normalize. rewrite dot_vdiv by lra.
  rewrite norm_sq. field. rewrite <- norm_sq. nra.
Qed.

Lemma cross_vdiv_l (a b : vec3) (k : R) :
  k <> 0 -> cross (vdiv a k) b = vdiv (cross a b) k.
Proof. intros Hk. apply vec3_eq; simpl; field; assumption. Qed.

Lemma vdiv_nonzero (v : vec3) (k : R) : k <> 0 -> v <> vzero -> vdiv v k <> vzero.
Proof.
  intros Hk Hv H. apply Hv.
  assert (Hx : vx (vdiv v k) = 0) by (rewrite H; reflexivity).
  assert (Hy : vy (vdiv v k) = 0) by (rewrite H; reflexivity).
  assert (Hz : vz (vdiv v k) = 0) by (rewrite H; reflexivity).
  simpl in Hx, Hy, Hz.
  apply vec3_eq; simpl.
  - replace (vx v) with (vx v / k * k) by (field; assumption). rewrite Hx. ring.
  - replace (vy v) with (vy v / k * k) by (field; assumption). rewrite Hy. ring.
  - replace (vz v) with (vz v / k * k) by (field; assumption). rewrite Hz. ring.
Qed.

Lemma vsub_nonzero (a b : vec3) : a <> b -> vsub a b <> vzero.
Proof.
  intros Hab H. apply Hab.
  assert (Hx : vx (vsub a b) = 0) by (rewrite H; reflexivity).
  assert (Hy : vy (vsub a b) = 0) by (rewrite H; reflexivity).
  assert (Hz : vz (vsub a b) = 0) by (rewrite H; reflexivity).
  simpl in Hx, Hy, Hz. apply vec3_eq; lra.
Qed.

Lemma cross_dot_l (a b : vec3) : dot (cross a b) a = 0.
Proof. unfold dot, cross; simpl. ring. Qed.

(** Lagrange's identity. *)
Lemma cross_dot_self (a b : vec3) :
  dot (cross a b) (cross a b) = dot a a * dot b b - dot a b * dot a b.
Proof. unfold dot, cross; simpl. ring. Qed.

Lemma dot_comm (a b : vec3) : dot a b = dot b a.
Proof. unfold dot. ring. Qed.

Lemma dot_vneg_r (a b : vec3) : dot a (vneg b) = - dot a b.
Proof. unfold dot, vneg; simpl. ring. Qed.

Lemma dot_vneg_vneg (a : vec3) : dot (vneg a) (vneg a) = dot a a.
Proof. unfold dot, vneg; simpl. ring. Qed.

(** The camera frame built from a unit forward vector [f] and a unit vector
    [s] orthogonal to it. *)
Section Frame.
Variables f s : vec3.
Hypothesis Hf : dot f f = 1.
Hypothesis Hs : dot s s = 1.
Hypothesis Hsf : dot s f = 0.

Lemma frame_up_unit : dot (cross s f) (cross s f) = 1.
Proof. rewrite cross_dot_self, Hf, Hs, Hsf. ring. Qed.

Lemma frame_right_up : dot s (cross s f) = 0.
Proof. rewrite dot_comm. apply cross_dot_l. Qed.

Lemma frame_up_back : dot (cross s f) (vneg f) = 0.
Proof. rewrite dot_vneg_r. unfold dot, cross; simpl. ring. Qed.

Lemma frame_right_back : dot s (vneg f) = 0.
Proof. rewrite dot_vneg_r, Hsf. ring. Qed.

Lemma frame_det :
  dot s (cross (cross s f) (vneg f)) = 1.
Proof.
  replace (dot s (cross (cross s f) (vneg f)))
    with (dot s s * dot f f - dot s f * dot s f)
    by (unfold dot, cross, vneg; simpl; ring).
  rewrite Hf, Hs, Hsf. ring.
Qed.
End Frame.

Lemma look_at_columns (eye target up : vec3) :
  look_at eye target up =
  of_columns (spec_right eye target up) (spec_trueUp eye target up)
             (vneg (spec_forward eye target)) eye.
Proof. reflexivity. Qed.

Lemma det3_of_columns (a b c t : vec3) :
  det3 (of_columns a b c t) = dot a (cross b c).
Proof. unfold det3, mget, dot, cross; simpl. ring. Qed.

Lemma col3_of_columns (a b c t : vec3) :
  col3 (of_columns a b c t) 0 = a /\
  col3 (of_columns a b c t) 1 = b /\
  col3 (of_columns a b c t) 2 = c /\
  col3 (of_columns a b c t) 3 = t.
Proof. destruct a, b, c, t. repeat split. Qed.

Lemma spec_forward_unit (eye target : vec3) :
  target <> eye -> dot (spec_forward eye target) (spec_forward eye target) = 1.
Proof. intros H. apply normalize_unit. now apply vsub_nonzero. Qed.

Lemma spec_right_defined (eye target up : vec3) :
  look_at_pre eye target up -> cross (spec_forward eye target) up <> vzero.
Proof.
  intros [Hne Hup].
  pose proof (norm_pos _ (vsub_nonzero _ _ Hne)) as Hn.
  unfold spec_forward, normalize. rewrite cross_vdiv_l by lra.
  apply vdiv_nonzero; [lra | exact Hup].
Qed.

Lemma spec_right_unit (eye target up : vec3) :
  look_at_pre eye target up ->
  dot (spec_right eye target up) (spec_right eye target up) = 1.
Proof. intros H. apply normalize_unit. now apply spec_right_defined. Qed.

Lemma spec_right_forward (eye target up : vec3) :
  look_at_pre eye target up ->
  dot (spec_right eye target up) (spec_forward eye target) = 0.
Proof.
  intros H. pose proof (norm_pos _ (spec_right_defined _ _ _ H)) as Hn.
  unfold spec_right, normalize.
  set (f := spec_forward eye target) in *.
  rewrite dot_vdiv_l by lra.
  rewrite cross_dot_l. field. lra.
Qed.

Lemma look_at_orthonormal (eye target up : vec3) :
  look_at_pre eye target up -> orthonormal (look_at eye target up).
Proof.
  intros H. rewrite look_at_columns.
  pose proof (spec_forward_unit eye target (proj1 H)) as Hf.
  pose proof (spec_right_unit eye target up H) as Hs.
  pose proof (spec_right_forward eye target up H) as Hsf.
  destruct (col3_of_columns (spec_right eye target up) (spec_trueUp eye target up)
              (vneg (spec_forward eye target)) eye) as (E0 & E1 & E2 & _).
  unfold orthonormal. rewrite E0, E1, E2, det3_of_columns.
  unfold spec_trueUp, norm.
  rewrite (frame_up_unit _ _ Hf Hs Hsf), dot_vneg_vneg, Hf, Hs, sqrt_1.
  repeat split.
  - apply frame_right_up.
  - now apply frame_right_back.
  - apply frame_up_back.
  - now apply frame_det.
Qed.

Lemma orthonormal_within_of_exact (tol : R) (m : matrix) :
  0 <= tol -> orthonormal m -> orthonormal_within tol m.
Proof.
  intros Ht (H1 & H2 & H3 & H4 & H5 & H6 & H7).
  unfold orthonormal_within, within.
  rewrite H1, H2, H3, H4, H5, H6, H7.
  replace (0 - 0) with 0 by ring. replace (1 - 1) with 0 by ring.
  rewrite Rabs_R0. repeat split; exact Ht.
Qed.

(** ** The look-at builder *)

(** C2: for every eye, target and up with target different from eye and up
    not parallel to target - eye, both normalisations divide by a non-zero
    norm and [look_at] returns the 4x4 matrix whose rotation columns are
    right, trueUp and -forward, whose translation column is eye and whose
    last row is (0, 0, 0, 1), where forward = normalize(target - eye),
    right = normalize(cross(forward, up)), trueUp = cross(right, forward). *)
Theorem look_at_is_right_up_back_eye (eye target up : vec3) :
  target <> eye ->
  cross (vsub target eye) up <> vzero ->
  let forward := normalize (vsub target eye) in
  let right := normalize (cross forward up) in
  let trueUp := cross right forward in
  norm (vsub target eye) <> 0 /\
  norm (cross forward up) <> 0 /\
  look_at eye target up = of_columns right trueUp (vneg forward) eye /\
  col3 (look_at eye target up) 0 = right /\
  col3 (look_at eye target up) 1 = trueUp /\
  col3 (look_at eye target up) 2 = vneg forward /\
  col3 (look_at eye target up) 3 = eye /\
  nth 3 (look_at eye target up) [] = [0; 0; 0; 1].
Proof.
  intros Hne Hup forward right trueUp.
  assert (Hpre : look_at_pre eye target up) by (split; assumption).
  pose proof (norm_pos _ (vsub_nonzero _ _ Hne)) as Hn1.
  pose proof (norm_pos _ (spec_right_defined _ _ _ Hpre)) as Hn2.
  split; [lra |]. split; [exact (Rgt_not_eq _ _ Hn2) |].
  rewrite look_at_columns.
  destruct (col3_of_columns (spec_right eye target up) (spec_trueUp eye target up)
              (vneg (spec_forward eye target)) eye) as (E0 & E1 & E2 & E3).
  repeat split; assumption.
Qed.

Lemma look_at_is_right_up_back_eye_witness :
  look_at_pre (mkVec 1 0 0) vzero (mkVec 0 0 1) /\
  look_at (mkVec 1 0 0) vzero (mkVec 0 0 1) =
  of_columns (normalize (cross (normalize (vsub vzero (mkVec 1 0 0))) (mkVec 0 0 1)))
             (cross (normalize (cross (normalize (vsub vzero (mkVec 1 0 0))) (mkVec 0 0 1)))
                    (normalize (vsub vzero (mkVec 1 0 0))))
             (vneg (normalize (vsub vzero (mkVec 1 0 0))))
             (mkVec 1 0 0).
Proof.
  assert (H1 : vzero <> mkVec 1 0 0).
  { intros H. apply (f_equal vx) in H. simpl in H. lra. }
  assert (H2 : cross (vsub vzero (mkVec 1 0 0)) (mkVec 0 0 1) <> vzero).
  { intros H. apply (f_equal vy) in H. simpl in H. lra. }
  split; [split; assumption |].
  exact (proj1 (proj2 (proj2
    (look_at_is_right_up_back_eye (mkVec 1 0 0) vzero (mkVec 0 0 1) H1 H2)))).
Defined.

(** ** The orbit *)

Lemma azimuth_spec (N i : nat) : azimuth N i = spec_azimuth N i.
Proof. unfold azimuth, spec_azimuth, Rdiv. ring. Qed.

Lemma elevation_spec (N i : nat) : elevation N i = spec_elevation N i.
Proof.
  unfold elevation, spec_elevation. do 2 f_equal. f_equal.
  unfold Rdiv. ring.
Qed.

Lemma camera_position_spec (c : vec3) (s : R) (N i : nat) :
  camera_pos c (camera_distance_of s) N i = spec_camera_position c s N i.
Proof.
  unfold camera_pos, spec_camera_position, camera_distance_of.
  rewrite azimuth_spec, elevation_spec.
  apply vec3_eq; simpl; ring.
Qed.

Lemma camera_pose_spec (c : vec3) (s : R) (N i : nat) :
  camera_pose c (camera_distance_of s) N i = spec_pose c s N i.
Proof.
  unfold camera_pose, spec_pose, up_vector. now rewrite camera_position_spec.
Qed.

Lemma elevation_closed_bounds (N i : nat) :
  PI / 8 <= elevation N i <= 3 * PI / 8.
Proof.
  unfold elevation.
  pose proof (SIN_bound (3 * PI * INR i / INR N)) as [Hlo Hhi].
  pose proof PI_RGT_0 as Hpi.
  split; nra.
Qed.

Lemma elevation_100_50 : elevation 100 50 = PI / 8.
Proof.
  unfold elevation. rewrite !INR_IZR_INZ. simpl Z.of_nat.
  replace (3 * PI * 50 / 100) with (3 * (PI / 2)) by field.
  rewrite sin_3PI2. field.
Qed.

Lemma elevation_6_1 : elevation 6 1 = 3 * PI / 8.
Proof.
  unfold elevation. rewrite !INR_IZR_INZ. simpl Z.of_nat.
  replace (3 * PI * 1 / 6) with (PI / 2) by field.
  rewrite sin_PI2. field.
Qed.

Lemma sphere_point_unit (phi theta : R) :
  (sin phi * cos theta) * (sin phi * cos theta)
  + (sin phi * sin theta) * (sin phi * sin theta)
  + cos phi * cos phi = 1.
Proof.
  pose proof (sin2_cos2 phi) as Hp. pose proof (sin2_cos2 theta) as Ht.
  unfold Rsqr in Hp, Ht.
  replace ((sin phi * cos theta) * (sin phi * cos theta)
           + (sin phi * sin theta) * (sin phi * sin theta) + cos phi * cos phi)
    with ((sin phi * sin phi) * (sin theta * sin theta + cos theta * cos theta)
          + cos phi * cos phi) by ring.
  rewrite Ht. lra.
Qed.

Lemma camera_offset_dot (c : vec3) (d : R) (N i : nat) :
  dot (vsub (camera_pos c d N i) c) (vsub (camera_pos c d N i) c) = d * d.
Proof.
  unfold camera_pos, dot; simpl.
  set (phi := elevation N i). set (theta := azimuth N i).
  pose proof (sphere_point_unit phi theta) as Hu.
  replace ((vx c + d * sin phi * cos theta - vx c) * (vx c + d * sin phi * cos theta - vx c)
           + (vy c + d * sin phi * sin theta - vy c) * (vy c + d * sin phi * sin theta - vy c)
           + (vz c + d * cos phi - vz c) * (vz c + d * cos phi - vz c))
    with (d * d * ((sin phi * cos theta) * (sin phi * cos theta)
                   + (sin phi * sin theta) * (sin phi * sin theta)
                   + cos phi * cos phi)) by ring.
  rewrite Hu. ring.
Qed.

Lemma camera_on_sphere (c : vec3) (d : R) (N i : nat) :
  0 <= d -> norm (vsub (camera_pos c d N i) c) = d.
Proof.
  intros Hd. unfold norm. rewrite camera_offset_dot. now apply sqrt_square.
Qed.

Lemma norm_nonneg (v : vec3) : 0 <= norm v.
Proof. unfold norm. apply sqrt_pos. Qed.

Lemma camera_distance_nonneg (b : vec3 * vec3) : 0 <= camera_distance_of (size_of b).
Proof.
  unfold camera_distance_of, size_of. pose proof (norm_nonneg (vsub (snd b) (fst b))). lra.
Qed.

(** ** The bounding volume *)

Section FoldExtremum.
Variable op : vec3 -> vec3 -> vec3.
Variable p : vec3 -> R.
Variable le : R -> R -> Prop.
Hypothesis le_refl : forall x, le x x.
Hypothesis le_trans : forall x y z, le x y -> le y z -> le x z.
Hypothesis op_l : forall a b, le (p (op a b)) (p a).
Hypothesis op_r : forall a b, le (p (op a b)) (p b).
Hypothesis op_sel : forall a b, p (op a b) = p a \/ p (op a b) = p b.

Lemma fold_extremum (vs : list vec3) :
  forall a,
    le (p (fold_left op vs a)) (p a) /\
    Forall (fun v => le (p (fold_left op vs a)) (p v)) vs /\
    (p (fold_left op vs a) = p a \/
     Exists (fun v => p v = p (fold_left op vs a)) vs).
Proof.
  induction vs as [| v vs IH]; intros a; simpl.
  - split; [apply le_refl |]. split; [constructor | now left].
  - destruct (IH (op a v)) as (Hle & Hall & Hsel).
    split; [eapply le_trans; [exact Hle | apply op_l] |].
    split.
    + constructor; [eapply le_trans; [exact Hle | apply op_r] | exact Hall].
    + destruct Hsel as [Heq | Hex].
      * destruct (op_sel a v) as [Ha | Hv].
        -- left. now rewrite Heq.
        -- right. apply Exists_cons_hd. now rewrite Heq.
      * right. now apply Exists_cons_tl.
Qed.

Lemma fold_extremum_cons (v : vec3) (vs : list vec3) :
  Forall (fun u => le (p (fold_left op vs v)) (p u)) (v :: vs) /\
  Exists (fun u => p u = p (fold_left op vs v)) (v :: vs).
Proof.
  destruct (fold_extremum vs v) as (Hle & Hall & Hsel). split.
  - now constructor.
  - destruct Hsel as [Heq | Hex].
    + apply Exists_cons_hd. now rewrite Heq.
    + now apply Exists_cons_tl.
Qed.
End FoldExtremum.

Lemma Rmin_sel (x y : R) : Rmin x y = x \/ Rmin x y = y.
Proof. unfold Rmin. destruct (Rle_dec x y); [now left | now right]. Qed.

Lemma Rmax_sel (x y : R) : Rmax x y = x \/ Rmax x y = y.
Proof. unfold Rmax. destruct (Rle_dec x y); [now right | now left]. Qed.

Lemma fold_vmin_is_min (v : vec3) (vs : list vec3) :
  is_cw_min (fold_left vmin vs v) (v :: vs).
Proof.
  unfold is_cw_min. repeat split.
  1, 2: apply (fold_extremum_cons vmin vx Rle).
  11, 12: apply (fold_extremum_cons vmin vy Rle).
  21, 22: apply (fold_extremum_cons vmin vz Rle).
  all: intros; simpl;
    try apply Rle_refl; try apply Rmin_l; try apply Rmin_r; try apply Rmin_sel;
    eapply Rle_trans; eassumption.
Qed.

Lemma fold_vmax_is_max (v : vec3) (vs : list vec3) :
  is_cw_max (fold_left vmax vs v) (v :: vs).
Proof.
  unfold is_cw_max. repeat split.
  1, 2: apply (fold_extremum_cons vmax vx (fun x y => y <= x)).
  11, 12: apply (fold_extremum_cons vmax vy (fun x y => y <= x)).
  21, 22: apply (fold_extremum_cons vmax vz (fun x y => y <= x)).
  all: intros; simpl;
    try apply Rle_refl; try apply Rmax_l; try apply Rmax_r; try apply Rmax_sel;
    eapply Rle_trans; eassumption.
Qed.

Lemma Rmin_IZR (a b : Z) : Rmin (IZR a) (IZR b) = IZR (Z.min a b).
Proof.
  destruct (Z.le_ge_cases a b) as [H | H].
  - rewrite Z.min_l by assumption. apply Rmin_left. now apply IZR_le.
  - rewrite Z.min_r by assumption. apply Rmin_right. now apply IZR_le.
Qed.

Lemma Rmax_IZR (a b : Z) : Rmax (IZR a) (IZR b) = IZR (Z.max a b).
Proof.
  destruct (Z.le_ge_cases a b) as [H | H].
  - rewrite Z.max_r by assumption. apply Rmax_right. now apply IZR_le.
  - rewrite Z.max_l by assumption. apply Rmax_left. now apply IZR_le.
Qed.

Lemma bounds_cube : bounds cube_mesh = Some (mkVec (-1) (-1) (-1), mkVec 1 1 1).
Proof.
  unfold bounds, cube_mesh, cube_vertices, vmin, vmax; simpl.
  rewrite !Rmin_IZR, !Rmax_IZR. reflexivity.
Qed.

Lemma sqrt_between (a lo hi : R) :
  0 <= lo -> lo * lo <= a -> a <= hi * hi -> 0 <= hi -> lo <= sqrt a <= hi.
Proof.
  intros Hlo Hla Hah Hhi. split.
  - rewrite <- (sqrt_square lo Hlo). now apply sqrt_le_1_alt.
  - rewrite <- (sqrt_square hi Hhi). now apply sqrt_le_1_alt.
Qed.

Lemma within_of_between (tol x y : R) : y - tol <= x <= y + tol -> within tol x y.
Proof. intros [H1 H2]. unfold within. apply Rabs_le. lra. Qed.

Lemma size_cube : size_of (mkVec (-1) (-1) (-1), mkVec 1 1 1) = sqrt 12.
Proof. unfold size_of, norm, dot; simpl. f_equal. ring. Qed.

Lemma center_cube : center_of (mkVec (-1) (-1) (-1), mkVec 1 1 1) = vzero.
Proof. unfold center_of. apply vec3_eq; simpl; field. Qed.

Lemma azimuth_first (N : nat) : azimuth N 0 = 0.
Proof. unfold azimuth. simpl INR. unfold Rdiv. ring. Qed.

Lemma elevation_first (N : nat) : elevation N 0 = PI / 4.
Proof.
  unfold elevation. simpl INR.
  replace (3 * PI * 0 / INR N) with 0 by (unfold Rdiv; ring).
  rewrite sin_0. ring.
Qed.

Lemma sqrt2_sq : sqrt 2 * sqrt 2 = 2.
Proof. apply sqrt_sqrt. lra. Qed.

Lemma sqrt12_sq : sqrt 12 * sqrt 12 = 12.
Proof. apply sqrt_sqrt. lra. Qed.

Lemma cube_first_offset : sqrt 12 * 2 * (1 / sqrt 2) = sqrt 24.
Proof.
  pose proof sqrt2_sq as H2. pose proof sqrt12_sq as H12.
  assert (Hs2 : 0 < sqrt 2) by (apply sqrt_lt_R0; lra).
  assert (Hs12 : 0 < sqrt 12) by (apply sqrt_lt_R0; lra).
  symmetry. apply sqrt_lem_1.
  - lra.
  - apply Rmult_le_pos; [lra |]. apply Rlt_le. apply Rdiv_lt_0_compat; lra.
  - replace (sqrt 12 * 2 * (1 / sqrt 2) * (sqrt 12 * 2 * (1 / sqrt 2)))
      with ((sqrt 12 * sqrt 12) * 4 / (sqrt 2 * sqrt 2)) by (field; lra).
    rewrite H2, H12. field.
Qed.

Lemma cube_first_camera_position :
  camera_pos vzero (camera_distance_of (sqrt 12)) 4 0 = mkVec (sqrt 24) 0 (sqrt 24).
Proof.
  unfold camera_pos. rewrite azimuth_first, elevation_first.
  rewrite sin_PI4, cos_PI4, cos_0, sin_0. unfold camera_distance_of.
  apply vec3_eq; simpl.
  - rewrite <- cube_first_offset. ring.
  - ring.
  - rewrite <- cube_first_offset. ring.
Qed.

(** C4: for every non-empty vertex set the bounding volume has center
    (min + max)/2 component-wise and extent the Euclidean norm of
    max - min, where min and max are the component-wise minimum and maximum
    over all vertices; for the cube spanning [-1,-1,-1] to [1,1,1] the
    center is the origin, the extent is sqrt 12 (3.4641 to four places),
    the camera distance is 6.9282 to four places, and with four views frame
    0 has azimuth 0, elevation pi/4 and camera position
    (sqrt 24, 0, sqrt 24), which is (4.899, 0, 4.899) to three places. *)
Theorem bounding_volume_center_and_extent :
  (forall mesh : Trimesh,
     vertices mesh <> [] ->
     exists lo hi,
       bounds mesh = Some (lo, hi) /\
       is_cw_min lo (vertices mesh) /\
       is_cw_max hi (vertices mesh) /\
       center_of (lo, hi) =
         mkVec ((vx lo + vx hi) / 2) ((vy lo + vy hi) / 2) ((vz lo + vz hi) / 2) /\
       size_of (lo, hi) =
         sqrt ((vx hi - vx lo) * (vx hi - vx lo)
               + (vy hi - vy lo) * (vy hi - vy lo)
               + (vz hi - vz lo) * (vz hi - vz lo))) /\
  (exists b,
     bounds cube_mesh = Some b /\
     center_of b = mkVec 0 0 0 /\
     size_of b = sqrt 12 /\
     within (5 / 100000) (size_of b) (34641 / 10000) /\
     within (5 / 100000) (camera_distance_of (size_of b)) (69282 / 10000) /\
     azimuth 4 0 = 0 /\
     elevation 4 0 = PI / 4 /\
     camera_pos (center_of b) (camera_distance_of (size_of b)) 4 0
       = mkVec (sqrt 24) 0 (sqrt 24) /\
     within (5 / 10000) (sqrt 24) (4899 / 1000)).
Proof.
  split.
  - intros [vs fs] Hne. simpl in Hne. destruct vs as [| v vs]; [contradiction |].
    exists (fold_left vmin vs v), (fold_left vmax vs v).
    split; [reflexivity |].
    split; [apply fold_vmin_is_min |].
    split; [apply fold_vmax_is_max |].
    split; reflexivity.
  - exists (mkVec (-1) (-1) (-1), mkVec 1 1 1).
    split; [apply bounds_cube |].
    rewrite center_cube, size_cube.
    split; [reflexivity |]. split; [reflexivity |].
    split.
    { apply within_of_between.
      pose proof (sqrt_between 12 (346405 / 100000) (346415 / 100000)) as H. lra. }
    split.
    { apply within_of_between. unfold camera_distance_of.
      pose proof (sqrt_between 12 (346409 / 100000) (346411 / 100000)) as H. lra. }
    split; [apply azimuth_first |].
    split; [apply elevation_first |].
    split; [apply cube_first_camera_position |].
    apply within_of_between.
    pose proof (sqrt_between 24 (48985 / 10000) (48995 / 10000)) as H. lra.
Qed.

Lemma bounding_volume_center_and_extent_witness :
  vertices cube_mesh <> [] /\
  exists lo hi, bounds cube_mesh = Some (lo, hi) /\ is_cw_min lo (vertices cube_mesh).
Proof.
  assert (Hne : vertices cube_mesh <> []) by discriminate.
  split; [exact Hne |].
  destruct (proj1 bounding_volume_center_and_extent cube_mesh Hne)
    as (lo & hi & Hb & Hmin & _).
  exists lo, hi. split; assumption.
Defined.

(** ** Elevation bounds and the viewing sphere *)

(** C5, as stated, fails: with the default of 100 views, frame 50 has
    elevation exactly pi/8, so the elevation is not strictly inside
    (pi/8, 3 pi/8) for every view count and index. *)
Lemma elevation_not_strictly_inside :
  ~ (forall N i : nat, (0 < N)%nat -> (i < N)%nat ->
       PI / 8 < elevation N i < 3 * PI / 8).
Proof.
  intros H. specialize (H 100%nat 50%nat ltac:(lia) ltac:(lia)).
  rewrite elevation_100_50 in H. lra.
Qed.

(** C5, amended: for every view count N > 0 and every index i in 0..N-1 the
    elevation lies in the closed interval [pi/8, 3 pi/8], hence strictly
    between 0 and pi/2. *)
Theorem elevation_in_closed_interval (N i : nat) :
  (0 < N)%nat -> (i < N)%nat ->
  PI / 8 <= elevation N i <= 3 * PI / 8 /\ 0 < elevation N i < PI / 2.
Proof.
  intros _ _. pose proof (elevation_closed_bounds N i) as [Hlo Hhi].
  pose proof PI_RGT_0 as Hpi.
  split; [split; assumption | split; lra].
Qed.

Lemma elevation_in_closed_interval_witness :
  PI / 8 <= elevation 6 1 <= 3 * PI / 8 /\ 0 < elevation 6 1 < PI / 2.
Proof.
  apply (elevation_in_closed_interval 6 1); lia.
Defined.

(** C9: for every mesh with a bounding volume, every view count N and every
    index i below N, the camera distance is twice the extent and the camera
    position lies at exactly that distance from the center. *)
Theorem camera_positions_on_common_sphere (mesh : Trimesh) (b : vec3 * vec3) (N i : nat) :
  bounds mesh = Some b ->
  (i < N)%nat ->
  camera_distance_of (size_of b) = 2 * size_of b /\
  norm (vsub (camera_pos (center_of b) (camera_distance_of (size_of b)) N i)
             (center_of b))
    = camera_distance_of (size_of b).
Proof.
  intros _ _. split.
  - unfold camera_distance_of. ring.
  - apply camera_on_sphere. apply camera_distance_nonneg.
Qed.

Lemma camera_positions_on_common_sphere_witness :
  norm (vsub (camera_pos (center_of (mkVec (-1) (-1) (-1), mkVec 1 1 1))
                (camera_distance_of (size_of (mkVec (-1) (-1) (-1), mkVec 1 1 1))) 4 1)
             (center_of (mkVec (-1) (-1) (-1), mkVec 1 1 1)))
    = camera_distance_of (size_of (mkVec (-1) (-1) (-1), mkVec 1 1 1)).
Proof.
  apply (camera_positions_on_common_sphere cube_mesh
           (mkVec (-1) (-1) (-1), mkVec 1 1 1) 4 1 bounds_cube).
  lia.
Defined.

(** ** The asset loader *)

Lemma triples_seq (m : nat) :
  forall a : nat,
    triples (seq a (3 * m)) =
    map (fun k => (a + 3 * k, a + 3 * k + 1, a + 3 * k + 2)%nat) (seq 0 m).
Proof.
  induction m as [| m IH]; intros a.
  - reflexivity.
  - replace (3 * S m)%nat with (S (S (S (3 * m)))) by lia.
    cbn [seq triples map]. f_equal.
    + f_equal; [f_equal |]; lia.
    + rewrite IH, <- seq_shift, map_map.
      apply map_ext. intros k. f_equal; [f_equal |]; lia.
Qed.

Lemma reshape3_arange_divisible (n : nat) :
  (n mod 3 = 0)%nat ->
  reshape3 (arange n) = inr (map sequential_face (seq 0 (n / 3))).
Proof.
  intros Hmod. unfold reshape3, arange. rewrite length_seq, Hmod. cbn [Nat.eqb].
  f_equal.
  rewrite (Nat.div_mod_eq n 3) at 1. rewrite Hmod, Nat.add_0_r.
  rewrite triples_seq. apply map_ext. intros k. reflexivity.
Qed.

Lemma reshape3_arange_indivisible (n : nat) :
  (n mod 3 <> 0)%nat -> reshape3 (arange n) = inl ReshapeError.
Proof.
  intros Hmod. unfold reshape3, arange. rewrite length_seq.
  destruct (Nat.eqb_spec (n mod 3) 0) as [H0 | _]; [contradiction | reflexivity].
Qed.

Lemma load_indices_fallback (gltf : GLTF2) (primitive : Primitive) (vs : list vec3) :
  index_fallback gltf primitive ->
  load_indices gltf primitive vs = reshape3 (arange (List.length vs)).
Proof.
  intros [Hnone | (k & acc & Hk & Hacc & Hbv)]; unfold load_indices.
  - now rewrite Hnone.
  - rewrite Hk. unfold subscript. rewrite Hacc. cbn [rbind]. now rewrite Hbv.
Qed.

Lemma load_vertices_fallback (float32_le : Byte.byte * Byte.byte * Byte.byte * Byte.byte -> R)
    (gltf : GLTF2) (primitive : Primitive) :
  position_fallback gltf primitive ->
  load_vertices float32_le gltf primitive = inr [mkVec 0 0 0].
Proof.
  intros (k & acc & Hk & Hacc & Hbv). unfold load_vertices.
  rewrite Hk. unfold subscript_opt, subscript. rewrite Hacc. cbn [rbind].
  now rewrite Hbv.
Qed.

Lemma load_glb_fallback (float32_le : Byte.byte * Byte.byte * Byte.byte * Byte.byte -> R)
    (gltf : GLTF2) (primitive : Primitive) (vs : list vec3) :
  first_primitive gltf = inr primitive ->
  index_fallback gltf primitive ->
  load_vertices float32_le gltf primitive = inr vs ->
  load_glb_with_pygltflib float32_le gltf =
  rbind (reshape3 (arange (List.length vs)))
        (fun faces => rbind (bounds_message vs) (fun _ => inr (mkTrimesh vs faces))).
Proof.
  intros Hp Hfb Hvs. unfold load_glb_with_pygltflib.
  rewrite Hp. cbn [rbind]. rewrite Hvs. cbn [rbind].
  now rewrite load_indices_fallback.
Qed.

(** C10: when the primitive has no index accessor, or its index accessor
    has no bufferView, loading succeeds only when the number of vertices is
    divisible by 3, and then with faces (3k, 3k+1, 3k+2); it does succeed
    for every non-empty vertex array of such a size; when the number of
    vertices is not divisible by 3 it fails with the reshape error; when in
    addition the position accessor has no bufferView, so that the only
    vertex is the origin, loading fails with the reshape error. *)
Theorem sequential_index_fallback
    (float32_le : Byte.byte * Byte.byte * Byte.byte * Byte.byte -> R)
    (gltf : GLTF2) (primitive : Primitive) :
  first_primitive gltf = inr primitive ->
  index_fallback gltf primitive ->
  (forall mesh : Trimesh,
     load_glb_with_pygltflib float32_le gltf = inr mesh ->
     load_vertices float32_le gltf primitive = inr (vertices mesh) /\
     (List.length (vertices mesh) mod 3 = 0)%nat /\
     faces mesh = map sequential_face (seq 0 (List.length (vertices mesh) / 3))) /\
  (forall vs : list vec3,
     load_vertices float32_le gltf primitive = inr vs ->
     ((List.length vs mod 3 = 0)%nat -> vs <> [] ->
      load_glb_with_pygltflib float32_le gltf =
      inr (mkTrimesh vs (map sequential_face (seq 0 (List.length vs / 3))))) /\
     ((List.length vs mod 3 <> 0)%nat ->
      load_glb_with_pygltflib float32_le gltf = inl ReshapeError)) /\
  (position_fallback gltf primitive ->
   load_vertices float32_le gltf primitive = inr [mkVec 0 0 0] /\
   load_glb_with_pygltflib float32_le gltf = inl ReshapeError).
Proof.
  intros Hp Hfb.
  assert (Hrun : forall vs, load_vertices float32_le gltf primitive = inr vs ->
            ((List.length vs mod 3 = 0)%nat -> vs <> [] ->
             load_glb_with_pygltflib float32_le gltf =
             inr (mkTrimesh vs (map sequential_face (seq 0 (List.length vs / 3))))) /\
            ((List.length vs mod 3 <> 0)%nat ->
             load_glb_with_pygltflib float32_le gltf = inl ReshapeError)).
  { intros vs Hvs. rewrite (load_glb_fallback _ _ _ _ Hp Hfb Hvs). split.
    - intros Hmod Hne. rewrite reshape3_arange_divisible by exact Hmod.
      destruct vs; [contradiction | reflexivity].
    - intros Hmod. now rewrite reshape3_arange_indivisible. }
  split; [| split; [exact Hrun |]].
  - intros mesh Hload.
    destruct (load_vertices float32_le gltf primitive) as [e | vs] eqn:Hvs.
    + unfold load_glb_with_pygltflib in Hload. rewrite Hp in Hload. cbn [rbind] in Hload.
      rewrite Hvs in Hload. discriminate.
    + rewrite (load_glb_fallback _ _ _ _ Hp Hfb Hvs) in Hload.
      destruct (Nat.eq_dec (List.length vs mod 3) 0) as [Hmod | Hmod].
      * rewrite reshape3_arange_divisible in Hload by exact Hmod.
        destruct vs as [| v vs]; [discriminate |].
        cbn [rbind bounds_message] in Hload. injection Hload as <-.
        repeat split; [exact Hmod].
      * rewrite reshape3_arange_indivisible in Hload by exact Hmod. discriminate.
  - intros Hpos. pose proof (load_vertices_fallback float32_le _ _ Hpos) as Hvs.
    split; [exact Hvs |].
    apply (proj2 (Hrun _ Hvs)). cbn. discriminate.
Qed.

Lemma sequential_index_fallback_witness :
  first_primitive bare_gltf = inr (mkPrimitive (Some 0%nat) None) /\
  load_glb_with_pygltflib (fun _ => 0) bare_gltf = inl ReshapeError.
Proof.
  assert (Hp : first_primitive bare_gltf = inr (mkPrimitive (Some 0%nat) None))
    by reflexivity.
  assert (Hfb : index_fallback bare_gltf (mkPrimitive (Some 0%nat) None))
    by (left; reflexivity).
  split; [exact Hp |].
  apply (proj2 (proj2 (sequential_index_fallback (fun _ => 0) bare_gltf _ Hp Hfb))).
  exists 0%nat, (mkAccessor None 5126). repeat split.
Defined.

(** ** The render loop *)

Lemma first_failure_none (E : env) (range : list nat) :
  first_failure E range = None <-> Forall (fun i => frame_ok E i = true) range.
Proof.
  induction range as [| i rest IH]; simpl.
  - split; [constructor | reflexivity].
  - destruct (frame_ok E i) eqn:Hi.
    + rewrite IH. split; [now constructor | now inversion 1].
    + split; [discriminate |]. inversion 1; congruence.
Qed.

Lemma completed_all (E : env) (range : list nat) :
  first_failure E range = None -> completed E range = range.
Proof.
  induction range as [| i rest IH]; simpl; [reflexivity |].
  destruct (frame_ok E i); [| discriminate].
  intros H. now rewrite IH.
Qed.

Lemma first_failure_seq (E : env) (n : nat) :
  forall a j : nat,
    (a <= j < a + n)%nat ->
    (forall i, (a <= i < j)%nat -> frame_ok E i = true) ->
    frame_ok E j = false ->
    first_failure E (seq a n) = Some j /\ completed E (seq a n) = seq a (j - a).
Proof.
  induction n as [| n IH]; intros a j Hj Hbefore Hfail; [lia |].
  cbn [seq first_failure completed].
  destruct (Nat.eq_dec a j) as [-> | Hneq].
  - rewrite Hfail, Nat.sub_diag. split; reflexivity.
  - rewrite (Hbefore a) by lia.
    destruct (IH (S a) j) as [H1 H2]; [lia | intros; apply Hbefore; lia | assumption |].
    rewrite H1, H2. replace (j - a)%nat with (S (j - S a)) by lia. split; reflexivity.
Qed.

Lemma first_failure_seq_inv (E : env) (n : nat) :
  forall a j : nat,
    first_failure E (seq a n) = Some j ->
    (a <= j < a + n)%nat /\
    (forall i, (a <= i < j)%nat -> frame_ok E i = true) /\
    frame_ok E j = false.
Proof.
  induction n as [| n IH]; intros a j; cbn [seq first_failure]; [discriminate |].
  destruct (frame_ok E a) eqn:Ha.
  - intros H. destruct (IH _ _ H) as (Hr & Hb & Hf).
    split; [lia |]. split; [| assumption].
    intros i Hi. destruct (Nat.eq_dec i a) as [-> | Hneq]; [assumption | apply Hb; lia].
  - intros [= <-]. split; [lia |]. split; [intros; lia | assumption].
Qed.

Section Loop.
Variable E : env.
Variable output_dir : string.
Variable center : vec3.
Variable camera_distance : R.
Variable num_views : nat.

Let body := render_frame E output_dir center camera_distance num_views.
Let pose := camera_pose center camera_distance num_views.
Let record := fun i : nat => transform_of (pose i) i.
Let events := frame_events output_dir center camera_distance num_views.
Let failed := failed_frame_events E center camera_distance num_views.

Lemma render_frame_ok (i : nat) (transforms : list frame) (w : world) :
  frame_ok E i = true ->
  body i transforms w = (inr (transforms ++ [record i]), w ++ events i).
Proof.
  unfold frame_ok. intros H. apply andb_prop in H as [Hr Hs].
  unfold body, render_frame, bind, external, emit, ret. rewrite Hr, Hs.
  unfold events, frame_events. rewrite <- !app_assoc. reflexivity.
Qed.

Lemma render_frame_fail (i : nat) (transforms : list frame) (w : world) :
  frame_ok E i = false ->
  body i transforms w = (inl (frame_error E i), w ++ failed i).
Proof.
  unfold frame_ok. intros H.
  unfold body, render_frame, bind, external, emit, ret, raise,
         failed, failed_frame_events, frame_error.
  destruct (render_ok E i); simpl in H.
  - rewrite H. rewrite <- !app_assoc. reflexivity.
  - reflexivity.
Qed.

Lemma for_each_frames (range : list nat) :
  forall (transforms : list frame) (w : world),
    for_each body range transforms w =
    match first_failure E range with
    | None => (inr (transforms ++ map record range), w ++ flat_map events range)
    | Some j => (inl (frame_error E j),
                 w ++ flat_map events (completed E range) ++ failed j)
    end.
Proof.
  induction range as [| i rest IH]; intros transforms w.
  - cbn. now rewrite !app_nil_r.
  - cbn [for_each first_failure completed]. unfold bind.
    destruct (frame_ok E i) eqn:Hi.
    + rewrite render_frame_ok by exact Hi. rewrite IH.
      destruct (first_failure E rest) as [j |].
      * cbn [flat_map]. now rewrite <- !app_assoc.
      * cbn [map flat_map]. now rewrite <- !app_assoc.
    + rewrite render_frame_fail by exact Hi. reflexivity.
Qed.

Lemma saved_images_events (range : list nat) :
  saved_images (flat_map events range) =
  map (fun i => path_join output_dir (image_name i)) range.
Proof.
  induction range as [| i rest IH]; [reflexivity |].
  cbn [flat_map map]. unfold saved_images in *. rewrite flat_map_app, IH. reflexivity.
Qed.

Lemma manifest_writes_events (range : list nat) :
  manifest_writes (flat_map events range) = [].
Proof.
  induction range as [| i rest IH]; [reflexivity |].
  cbn [flat_map]. unfold manifest_writes in *. rewrite flat_map_app, IH. reflexivity.
Qed.

Lemma attached_poses_events (range : list nat) :
  attached_poses (flat_map events range) = map pose range.
Proof.
  induction range as [| i rest IH]; [reflexivity |].
  cbn [flat_map map]. unfold attached_poses in *. rewrite flat_map_app, IH. reflexivity.
Qed.


Lemma attached_poses_failed (j : nat) : attached_poses (failed j) = [pose j].
Proof. unfold failed, failed_frame_events. destruct (render_ok E j); reflexivity. Qed.
End Loop.

(** ** The whole run *)

Lemma render_mesh_run (E : env) (mesh : Trimesh) (output_dir : string) (num_views : nat)
    (w : world) :
  render_mesh E mesh output_dir num_views w =
  if setup_ok E then
    match bounds mesh with
    | None => (inl TypeError, w)
    | Some b =>
        let center := center_of b in
        let camera_distance := camera_distance_of (size_of b) in
        match first_failure E (seq 0 num_views) with
        | Some j =>
            (inl (frame_error E j),
             w ++ flat_map (frame_events output_dir center camera_distance num_views)
                           (completed E (seq 0 num_views))
               ++ failed_frame_events E center camera_distance num_views j)
        | None =>
            if manifest_ok E then
              (if cleanup_ok E then inr tt else inl CleanupFailure,
               w ++ flat_map (frame_events output_dir center camera_distance num_views)
                             (seq 0 num_views)
                 ++ [EvWriteManifest (path_join output_dir "transforms.json")
                       {| camera_angle_x := PI / 3;
                          frames := map (fun i => transform_of
                                           (camera_pose center camera_distance num_views i) i)
                                        (seq 0 num_views) |}])
            else
              (inl ManifestIOFailure,
               w ++ flat_map (frame_events output_dir center camera_distance num_views)
                             (seq 0 num_views))
        end
    end
  else (inl SetupFailure, w).
Proof.
  unfold render_mesh, bind, check, lift, external, ret, raise, emit.
  destruct (setup_ok E); [| reflexivity].
  destruct (bounds mesh) as [b |]; [| reflexivity].
  cbv zeta. rewrite for_each_frames.
  destruct (first_failure E (seq 0 num_views)) as [j |]; [reflexivity |].
  cbn [app]. destruct (manifest_ok E); [| reflexivity].
  rewrite <- app_assoc. destruct (cleanup_ok E); reflexivity.
Qed.

Lemma render_glb_views_run (float32_le : Byte.byte * Byte.byte * Byte.byte * Byte.byte -> R)
    (E : env) (gltf : GLTF2) (output_dir : string) (num_views : nat) (w : world) :
  render_glb_views float32_le E gltf output_dir num_views w =
  if mkdir_ok E then
    match load_glb_with_pygltflib float32_le gltf with
    | inl e => (inl e, w ++ [EvMkdir output_dir])
    | inr mesh => render_mesh E mesh output_dir num_views (w ++ [EvMkdir output_dir])
    end
  else (inl DirectoryIOFailure, w).
Proof.
  unfold render_glb_views, bind, external, lift, emit, raise.
  destruct (mkdir_ok E); [| reflexivity].
  destruct (load_glb_with_pygltflib float32_le gltf); reflexivity.
Qed.

Lemma saved_images_app (w1 w2 : world) :
  saved_images (w1 ++ w2) = saved_images w1 ++ saved_images w2.
Proof. apply flat_map_app. Qed.

Lemma manifest_writes_app (w1 w2 : world) :
  manifest_writes (w1 ++ w2) = manifest_writes w1 ++ manifest_writes w2.
Proof. apply flat_map_app. Qed.

Lemma attached_poses_app (w1 w2 : world) :
  attached_poses (w1 ++ w2) = attached_poses w1 ++ attached_poses w2.
Proof. apply flat_map_app. Qed.


Lemma all_frames_ok (E : env) (N : nat) :
  (forall i, (i < N)%nat -> frame_ok E i = true) -> first_failure E (seq 0 N) = None.
Proof.
  intros H. apply first_failure_none. apply Forall_forall.
  intros i Hi. apply in_seq in Hi. apply H. lia.
Qed.


Lemma completed_until_failure (E : env) (N j : nat) :
  first_failure E (seq 0 N) = Some j ->
  (j < N)%nat /\ frame_ok E j = false /\ completed E (seq 0 N) = seq 0 j.
Proof.
  intros H. destruct (first_failure_seq_inv E N 0 j H) as (Hr & Hb & Hf).
  destruct (first_failure_seq E N 0 j Hr Hb Hf) as [_ Hc].
  rewrite Nat.sub_0_r in Hc. split; [lia |]. split; assumption.
Qed.

(** The worlds a run over a mesh with bounds [b] can leave. *)
Lemma render_mesh_world (E : env) (mesh : Trimesh) (output_dir : string) (N : nat)
    (b : vec3 * vec3) :
  bounds mesh = Some b ->
  let c := center_of b in
  let d := camera_distance_of (size_of b) in
  let run := render_mesh E mesh output_dir N in
  let w := final_world run in
  (setup_ok E = false /\ outcome run = inl SetupFailure /\ w = []) \/
  (setup_ok E = true /\
   exists j, first_failure E (seq 0 N) = Some j /\
             outcome run = inl (frame_error E j) /\
             w = flat_map (frame_events output_dir c d N) (seq 0 j)
                 ++ failed_frame_events E c d N j) \/
  (setup_ok E = true /\ first_failure E (seq 0 N) = None /\
   manifest_ok E = false /\ outcome run = inl ManifestIOFailure /\
   w = flat_map (frame_events output_dir c d N) (seq 0 N)) \/
  (setup_ok E = true /\ first_failure E (seq 0 N) = None /\
   manifest_ok E = true /\
   outcome run = (if cleanup_ok E then inr tt else inl CleanupFailure) /\
   w = flat_map (frame_events output_dir c d N) (seq 0 N)
       ++ [EvWriteManifest (path_join output_dir "transforms.json")
             {| camera_angle_x := PI / 3;
                frames := map (fun i => transform_of (camera_pose c d N i) i) (seq 0 N) |}]).
Proof.
  intros Hb c d run w. subst w run. unfold outcome, final_world.
  rewrite render_mesh_run, Hb. cbv zeta. fold c d.
  destruct (setup_ok E); [| left; repeat split].
  right. destruct (first_failure E (seq 0 N)) as [j |] eqn:Hff.
  - left. split; [reflexivity |]. exists j.
    destruct (completed_until_failure E N j Hff) as (_ & _ & Hc). rewrite Hc.
    repeat split.
  - right. destruct (manifest_ok E).
    + right. repeat split.
    + left. repeat split.
Qed.

Lemma orbit_look_at_pre (c : vec3) (d : R) (N i : nat) :
  0 < d -> look_at_pre (camera_pos c d N i) c up_vector.
Proof.
  intros Hd.
  pose proof (elevation_closed_bounds N i) as [Hlo Hhi].
  pose proof PI_RGT_0 as Hpi.
  assert (Hsin : 0 < sin (elevation N i)) by (apply sin_gt_0; lra).
  pose proof (sin2_cos2 (azimuth N i)) as Hunit. unfold Rsqr in Hunit.
  assert (Hcross : cross (vsub c (camera_pos c d N i)) up_vector <> vzero).
  { intros H.
    pose proof (f_equal vx H) as Hx. pose proof (f_equal vy H) as Hy.
    unfold camera_pos, up_vector in Hx, Hy. simpl in Hx, Hy.
    set (sp := sin (elevation N i)) in *.
    set (st := sin (azimuth N i)) in *. set (ct := cos (azimuth N i)) in *.
    assert (Hs : d * sp * st = 0) by lra.
    assert (Hc : d * sp * ct = 0) by lra.
    assert (Hz : (d * sp) * (d * sp) = 0).
    { replace ((d * sp) * (d * sp))
        with ((d * sp * st) * (d * sp * st) + (d * sp * ct) * (d * sp * ct))
        by (transitivity ((d * sp) * (d * sp) * (st * st + ct * ct)); [ring | rewrite Hunit; ring]).
      rewrite Hs, Hc. ring. }
    assert (Hpos : 0 < d * sp) by (apply Rmult_lt_0_compat; assumption).
    nra. }
  split; [| exact Hcross].
  intros Heq. apply Hcross. rewrite <- Heq.
  apply vec3_eq; simpl; ring.
Qed.

(** C1: for every view count N > 0 and every bounding volume with center c
    and extent s > 0, frame i has camera position
    c + d (sin phi cos theta, sin phi sin theta, cos phi) with
    theta = 2 pi i / N, phi = pi/4 + (pi/8) sin(3 pi i / N) and d = 2 s, and
    pose look_at(eye = that position, target = c, up = (0,0,1)), whose
    preconditions hold; the poses a run attaches to the scene are these, for
    the indices 0, 1, ... in order, and all N of them when no external call
    raises. *)
Theorem orbit_view_samples (E : env) (mesh : Trimesh) (output_dir : string) (N : nat)
    (b : vec3 * vec3) :
  (0 < N)%nat ->
  bounds mesh = Some b ->
  0 < size_of b ->
  let c := center_of b in
  let s := size_of b in
  let w := final_world (render_mesh E mesh output_dir N) in
  (forall i : nat, (i < N)%nat ->
     camera_pos c (camera_distance_of s) N i = spec_camera_position c s N i /\
     camera_pose c (camera_distance_of s) N i =
       look_at (spec_camera_position c s N i) c (mkVec 0 0 1) /\
     look_at_pre (spec_camera_position c s N i) c (mkVec 0 0 1)) /\
  (exists k : nat, (k <= N)%nat /\ attached_poses w = map (spec_pose c s N) (seq 0 k)) /\
  (setup_ok E = true -> (forall i, (i < N)%nat -> frame_ok E i = true) ->
   attached_poses w = map (spec_pose c s N) (seq 0 N)).
Proof.
  intros HN Hb Hs c s w.
  assert (Hposes : forall k, map (camera_pose c (camera_distance_of s) N) (seq 0 k)
                             = map (spec_pose c s N) (seq 0 k)).
  { intros k. apply map_ext. intros i. apply camera_pose_spec. }
  split; [| split].
  - intros i Hi. split; [apply camera_position_spec |].
    split; [apply camera_pose_spec |].
    rewrite <- camera_position_spec. apply orbit_look_at_pre.
    unfold camera_distance_of, s. lra.
  - destruct (render_mesh_world E mesh output_dir N b Hb)
      as [(_ & _ & Hw) | [(_ & j & Hff & _ & Hw) | [(_ & _ & _ & _ & Hw) | (_ & _ & _ & _ & Hw)]]];
      fold c s w in Hw; rewrite Hw.
    + exists 0%nat. split; [lia | reflexivity].
    + destruct (completed_until_failure E N j Hff) as (Hj & _ & _).
      exists (S j). split; [lia |].
      rewrite attached_poses_app, attached_poses_events, attached_poses_failed.
      rewrite <- Hposes, seq_S, map_app. reflexivity.
    + exists N. split; [lia |]. rewrite attached_poses_events. apply Hposes.
    + exists N. split; [lia |].
      rewrite attached_poses_app, attached_poses_events. cbn. rewrite app_nil_r. apply Hposes.
  - intros Hsetup Hok. pose proof (all_frames_ok E N Hok) as Hnone.
    destruct (render_mesh_world E mesh output_dir N b Hb)
      as [(Hno & _) | [(_ & j & Hff & _) | [(_ & _ & _ & _ & Hw) | (_ & _ & _ & _ & Hw)]]].
    + congruence.
    + congruence.
    + fold c s w in Hw. rewrite Hw, attached_poses_events. apply Hposes.
    + fold c s w in Hw.
      rewrite Hw, attached_poses_app, attached_poses_events. cbn. rewrite app_nil_r.
      apply Hposes.
Qed.

Lemma cube_size_pos : 0 < size_of (mkVec (-1) (-1) (-1), mkVec 1 1 1).
Proof. rewrite size_cube. apply sqrt_lt_R0. lra. Qed.

Lemma orbit_view_samples_witness :
  attached_poses (final_world (render_mesh env_ok cube_mesh "renders" 4)) =
  map (spec_pose (center_of (mkVec (-1) (-1) (-1), mkVec 1 1 1))
                 (size_of (mkVec (-1) (-1) (-1), mkVec 1 1 1)) 4)
      (seq 0 4).
Proof.
  apply (proj2 (proj2 (orbit_view_samples env_ok cube_mesh "renders" 4
                         (mkVec (-1) (-1) (-1), mkVec 1 1 1)
                         ltac:(lia) bounds_cube cube_size_pos))).
  - reflexivity.
  - intros i _. reflexivity.
Defined.

(** Every pose of the orbit around a volume of positive extent is
    orthonormal with determinant +1. *)
Corollary orbit_poses_orthonormal (c : vec3) (s : R) (N i : nat) :
  0 < s -> orthonormal (camera_pose c (camera_distance_of s) N i).
Proof.
  intros Hs. apply look_at_orthonormal. apply orbit_look_at_pre.
  unfold camera_distance_of. lra.
Qed.

(** C3: for every output of [look_at] under its preconditions, and so for
    every pose of the orbit around a bounding volume of positive extent,
    the columns of the upper-left 3x3 block are pairwise orthogonal and of
    unit length and the determinant of the block is +1, exactly in real
    arithmetic and hence within 1e-5. *)
Theorem look_at_rotation_orthonormal :
  (forall eye target up : vec3,
     target <> eye ->
     cross (vsub target eye) up <> vzero ->
     orthonormal (look_at eye target up) /\
     orthonormal_within (1 / 100000) (look_at eye target up)) /\
  (forall (c : vec3) (s : R) (N i : nat),
     0 < s -> (i < N)%nat ->
     orthonormal (camera_pose c (camera_distance_of s) N i) /\
     orthonormal_within (1 / 100000) (camera_pose c (camera_distance_of s) N i)).
Proof.
  split.
  - intros eye target up Hne Hup.
    assert (Hpre : look_at_pre eye target up) by (split; assumption).
    pose proof (look_at_orthonormal eye target up Hpre) as Ho.
    split; [exact Ho |].
    apply orthonormal_within_of_exact; [lra | exact Ho].
  - intros c s N i Hs _.
    pose proof (orbit_poses_orthonormal c s N i Hs) as Ho.
    split; [exact Ho |].
    apply orthonormal_within_of_exact; [lra | exact Ho].
Qed.

Lemma look_at_rotation_orthonormal_witness :
  look_at_pre (mkVec 3 4 0) (mkVec 0 0 0) (mkVec 0 0 1) /\
  orthonormal_within (1 / 100000) (look_at (mkVec 3 4 0) (mkVec 0 0 0) (mkVec 0 0 1)).
Proof.
  assert (H1 : mkVec 0 0 0 <> mkVec 3 4 0).
  { intros H. apply (f_equal vx) in H. simpl in H. lra. }
  assert (H2 : cross (vsub (mkVec 0 0 0) (mkVec 3 4 0)) (mkVec 0 0 1) <> vzero).
  { intros H. apply (f_equal vx) in H. simpl in H. lra. }
  split; [split; assumption |].
  exact (proj2 (proj1 look_at_rotation_orthonormal
                  (mkVec 3 4 0) (mkVec 0 0 0) (mkVec 0 0 1) H1 H2)).
Defined.

(** ** Output names *)

Lemma string_length_append (s1 s2 : string) :
  String.length (s1 ++ s2) = (String.length s1 + String.length s2)%nat.
Proof. induction s1 as [| a s1 IH]; simpl; [reflexivity | now rewrite IH]. Qed.

Lemma zeros_length (k : nat) : String.length (zeros k) = k.
Proof. induction k as [| k IH]; simpl; [reflexivity | now rewrite IH]. Qed.

Lemma format_04d_length (i : nat) : (4 <= String.length (format_04d i))%nat.
Proof. unfold format_04d. rewrite string_length_append, zeros_length. lia. Qed.

Lemma decimal_value_zero (s : string) : decimal_value (String "0" s) = decimal_value s.
Proof.
  unfold decimal_value. cbn [NilEmpty.uint_of_string].
  destruct (NilEmpty.uint_of_string s) as [d |]; reflexivity.
Qed.

Lemma decimal_value_zeros (k : nat) (s : string) :
  decimal_value (zeros k ++ s) = decimal_value s.
Proof.
  induction k as [| k IH]; [reflexivity |].
  cbn [zeros append]. now rewrite decimal_value_zero.
Qed.

Lemma format_04d_value (i : nat) : decimal_value (format_04d i) = Some i.
Proof.
  unfold format_04d. rewrite decimal_value_zeros. unfold decimal_value, NilZero.string_of_uint.
  destruct (Nat.to_uint i) eqn:Hd;
    try (rewrite <- Hd, NilEmpty.usu; cbn [option_map]; now rewrite Unsigned.of_to).
  cbn. f_equal. rewrite <- (Unsigned.of_to i), Hd. reflexivity.
Qed.

Lemma nth_error_map_seq {A : Type} (g : nat -> A) (N i : nat) :
  (i < N)%nat -> nth_error (map g (seq 0 N)) i = Some (g i).
Proof.
  intros Hi. apply map_nth_error.
  rewrite (nth_error_nth' _ 0%nat) by (rewrite length_seq; exact Hi).
  now rewrite seq_nth.
Qed.

Lemma look_at_rows (eye target up : vec3) :
  let m := look_at eye target up in
  is_4x4 (tolist m) /\
  tolist m = [ [mget m 0 0; mget m 0 1; mget m 0 2; mget m 0 3];
               [mget m 1 0; mget m 1 1; mget m 1 2; mget m 1 3];
               [mget m 2 0; mget m 2 1; mget m 2 2; mget m 2 3];
               [mget m 3 0; mget m 3 1; mget m 3 2; mget m 3 3] ].
Proof.
  cbv zeta. rewrite look_at_columns. split.
  - split; [reflexivity |]. repeat constructor.
  - reflexivity.
Qed.

(** C7: on a successful run with view count N the world consists of the
    directory creation, the N frames in index order and then the one write
    of the manifest; the manifest has camera_angle_x = pi/3 and exactly N
    frame records in index order; record i has file_path "./image_" followed
    by the decimal digits of i padded with zeros to at least four, followed
    by ".png", which names the image saved for frame i, and its
    transform_matrix is the pose of frame i as 4 rows of 4 entries. *)
Theorem manifest_of_successful_run
    (float32_le : Byte.byte * Byte.byte * Byte.byte * Byte.byte -> R)
    (E : env) (gltf : GLTF2) (output_dir : string) (N : nat) :
  outcome (render_glb_views float32_le E gltf output_dir N) = inr tt ->
  let w := final_world (render_glb_views float32_le E gltf output_dir N) in
  exists (mesh : Trimesh) (b : vec3 * vec3),
    load_glb_with_pygltflib float32_le gltf = inr mesh /\
    bounds mesh = Some b /\
    let c := center_of b in
    let d := camera_distance_of (size_of b) in
    let m := {| camera_angle_x := PI / 3;
                frames := map (fun i => transform_of (camera_pose c d N i) i) (seq 0 N) |} in
    w = EvMkdir output_dir
        :: flat_map (frame_events output_dir c d N) (seq 0 N)
        ++ [EvWriteManifest (path_join output_dir "transforms.json") m] /\
    manifest_writes w = [(path_join output_dir "transforms.json", m)] /\
    saved_images w = map (fun i => path_join output_dir (image_name i)) (seq 0 N) /\
    camera_angle_x m = PI / 3 /\
    List.length (frames m) = N /\
    forall i : nat, (i < N)%nat ->
      exists digits : string,
        (4 <= String.length digits)%nat /\
        decimal_value digits = Some i /\
        nth_error (frames m) i =
          Some {| file_path := ("./image_" ++ digits ++ ".png")%string;
                  transform_matrix := look_at (camera_pos c d N i) c (mkVec 0 0 1) |} /\
        nth_error (saved_images w) i =
          Some (path_join output_dir ("image_" ++ digits ++ ".png")%string) /\
        is_4x4 (look_at (camera_pos c d N i) c (mkVec 0 0 1)).
Proof.
  intros Hok w. subst w. unfold outcome, final_world in *.
  rewrite render_glb_views_run in *.
  destruct (mkdir_ok E); [| discriminate].
  destruct (load_glb_with_pygltflib float32_le gltf) as [e | mesh] eqn:Hload;
    [discriminate |].
  rewrite render_mesh_run in *.
  destruct (setup_ok E); [| discriminate].
  destruct (bounds mesh) as [b |] eqn:Hb; [| discriminate].
  cbv zeta in *.
  destruct (first_failure E (seq 0 N)) as [j |]; [discriminate |].
  destruct (manifest_ok E); [| discriminate].
  exists mesh, b. split; [reflexivity |]. split; [exact Hb |].
  cbn [snd app].
  set (c := center_of b). set (d := camera_distance_of (size_of b)).
  assert (Hsaved : saved_images
            (EvMkdir output_dir :: flat_map (frame_events output_dir c d N) (seq 0 N)
             ++ [EvWriteManifest (path_join output_dir "transforms.json")
                   {| camera_angle_x := PI / 3;
                      frames := map (fun i => transform_of (camera_pose c d N i) i) (seq 0 N) |}])
            = map (fun i => path_join output_dir (image_name i)) (seq 0 N)).
  { change (EvMkdir output_dir :: ?l) with ([EvMkdir output_dir] ++ l).
    rewrite !saved_images_app, saved_images_events. cbn. now rewrite app_nil_r. }
  split; [reflexivity |].
  split.
  { change (EvMkdir output_dir :: ?l) with ([EvMkdir output_dir] ++ l).
    rewrite !manifest_writes_app, manifest_writes_events. reflexivity. }
  split; [exact Hsaved |].
  split; [reflexivity |].
  split; [cbn [frames]; now rewrite length_map, length_seq |].
  intros i Hi. exists (format_04d i).
  split; [apply format_04d_length |].
  split; [apply format_04d_value |].
  split; [cbn [frames]; now rewrite nth_error_map_seq by exact Hi |].
  split.
  { etransitivity; [exact (f_equal (fun l => nth_error l i) Hsaved) |].
    now rewrite nth_error_map_seq by exact Hi. }
  apply (look_at_rows (camera_pos c d N i) c (mkVec 0 0 1)).
Qed.

Lemma run_ends (float32_le : Byte.byte * Byte.byte * Byte.byte * Byte.byte -> R)
    (E : env) (gltf : GLTF2) (output_dir : string) (N : nat) :
  run_end float32_le E gltf output_dir N
    (outcome (render_glb_views float32_le E gltf output_dir N))
    (final_world (render_glb_views float32_le E gltf output_dir N)).
Proof.
  unfold outcome, final_world. rewrite render_glb_views_run.
  destruct (mkdir_ok E) eqn:Hmk; [| now apply end_mkdir].
  destruct (load_glb_with_pygltflib float32_le gltf) as [e | mesh] eqn:Hload;
    [now apply end_load |].
  rewrite render_mesh_run.
  destruct (setup_ok E) eqn:Hset; [| now apply (end_setup _ _ _ _ _ mesh)].
  destruct (bounds mesh) as [b |] eqn:Hb; [| now apply (end_bounds _ _ _ _ _ mesh)].
  cbv zeta.
  destruct (first_failure E (seq 0 N)) as [j |] eqn:Hff.
  - destruct (completed_until_failure E N j Hff) as (_ & _ & Hc). rewrite Hc.
    now apply (end_frame _ _ _ _ _ mesh b j).
  - destruct (manifest_ok E) eqn:Hman.
    + destruct (cleanup_ok E) eqn:Hcl.
      * now apply (end_normal _ _ _ _ _ mesh b).
      * now apply (end_cleanup _ _ _ _ _ mesh b).
    + now apply (end_manifest _ _ _ _ _ mesh b).
Qed.

Lemma saved_images_of_frames (E : env) (output_dir : string) (c : vec3) (d : R)
    (N k : nat) (tail : world) :
  saved_images tail = [] ->
  saved_images (EvMkdir output_dir :: flat_map (frame_events output_dir c d N) (seq 0 k)
                ++ tail)
  = map (fun i => path_join output_dir (image_name i)) (seq 0 k).
Proof.
  intros Htail. change (EvMkdir output_dir :: ?l) with ([EvMkdir output_dir] ++ l).
  rewrite !saved_images_app, saved_images_events, Htail. cbn. now rewrite app_nil_r.
Qed.

Lemma manifest_writes_of_frames (output_dir : string) (c : vec3) (d : R)
    (N k : nat) (tail : world) :
  manifest_writes (EvMkdir output_dir :: flat_map (frame_events output_dir c d N) (seq 0 k)
                   ++ tail)
  = manifest_writes tail.
Proof.
  change (EvMkdir output_dir :: ?l) with ([EvMkdir output_dir] ++ l).
  rewrite !manifest_writes_app, manifest_writes_events. reflexivity.
Qed.


Lemma saved_images_failed_frame (E : env) (c : vec3) (d : R) (N j : nat) :
  saved_images (failed_frame_events E c d N j) = [].
Proof. unfold failed_frame_events. destruct (render_ok E j); reflexivity. Qed.

Lemma manifest_writes_failed_frame (E : env) (c : vec3) (d : R) (N j : nat) :
  manifest_writes (failed_frame_events E c d N j) = [].
Proof. unfold failed_frame_events. destruct (render_ok E j); reflexivity. Qed.



Lemma point_gltf_loads :
  load_glb_with_pygltflib (fun _ => 0) point_gltf = inr (mkTrimesh [vzero] [(0, 0, 0)%nat]).
Proof. reflexivity. Qed.


Lemma point_run_succeeds :
  outcome (render_glb_views (fun _ => 0) env_ok point_gltf "renders" 2) = inr tt.
Proof. reflexivity. Qed.

Lemma manifest_of_successful_run_witness :
  exists (mesh : Trimesh) (b : vec3 * vec3),
    load_glb_with_pygltflib (fun _ => 0) point_gltf = inr mesh /\
    bounds mesh = Some b /\
    List.length
      (manifest_writes
         (final_world (render_glb_views (fun _ => 0) env_ok point_gltf "renders" 2)))
    = 1%nat.
Proof.
  destruct (manifest_of_successful_run (fun _ => 0) env_ok point_gltf "renders" 2
              point_run_succeeds) as (mesh & b & Hload & Hb & _ & Hm & _).
  exists mesh, b. split; [exact Hload |]. split; [exact Hb |].
  rewrite Hm. reflexivity.
Defined.

(** ** Degenerate geometry *)








Lemma loaded_mesh_has_vertices
    (float32_le : Byte.byte * Byte.byte * Byte.byte * Byte.byte -> R)
    (gltf : GLTF2) (mesh : Trimesh) :
  load_glb_with_pygltflib float32_le gltf = inr mesh -> vertices mesh <> [].
Proof.
  unfold load_glb_with_pygltflib, rbind.
  destruct (first_primitive gltf) as [e | primitive]; [discriminate |].
  destruct (load_vertices float32_le gltf primitive) as [e | vs]; [discriminate |].
  destruct (load_indices gltf primitive vs) as [e | fs]; [discriminate |].
  destruct vs as [| v vs]; cbn [bounds_message]; [discriminate |].
  intros [= <-]. discriminate.
Qed.




(** * Further properties of the code *)

(** ** look_at: where the camera looks *)

Lemma dot_normalize_r (v w : vec3) :
  v <> vzero -> dot v w = norm v * dot (normalize v) w.
Proof.
  intros Hv. pose proof (norm_pos v Hv) as Hn.
  unfold normalize. rewrite dot_vdiv_l by lra. field. lra.
Qed.

Lemma dot_normalize_self (v : vec3) :
  v <> vzero -> dot v (normalize v) = norm v.
Proof.
  intros Hv. rewrite (dot_normalize_r v _ Hv), normalize_unit by exact Hv. ring.
Qed.

(** X1: under its preconditions [look_at] aims the camera at the target:
    seen from the eye, the target has no component along the camera's right
    and up axes and lies on the negative local Z axis at distance
    |target - eye|. *)
Theorem look_at_faces_target (eye target up : vec3) :
  target <> eye ->
  cross (vsub target eye) up <> vzero ->
  let m := look_at eye target up in
  dot (vsub target eye) (col3 m 0) = 0 /\
  dot (vsub target eye) (col3 m 1) = 0 /\
  dot (vsub target eye) (col3 m 2) = - norm (vsub target eye) /\
  0 < norm (vsub target eye) /\
  col3 m 3 = eye.
Proof.
  intros Hne Hup m. subst m.
  assert (Hpre : look_at_pre eye target up) by (split; assumption).
  pose proof (vsub_nonzero _ _ Hne) as Hv.
  pose proof (spec_forward_unit eye target Hne) as Hf.
  pose proof (spec_right_unit eye target up Hpre) as Hs.
  pose proof (spec_right_forward eye target up Hpre) as Hsf.
  rewrite look_at_columns.
  destruct (col3_of_columns (spec_right eye target up) (spec_trueUp eye target up)
              (vneg (spec_forward eye target)) eye) as (E0 & E1 & E2 & E3).
  rewrite E0, E1, E2, E3.
  rewrite !(dot_normalize_r (vsub target eye) _ Hv).
  fold (spec_forward eye target).
  split.
  { rewrite (dot_comm (spec_forward eye target)), Hsf. ring. }
  split.
  { unfold spec_trueUp. rewrite (dot_comm (spec_forward eye target)).
    replace (dot (cross (spec_right eye target up) (spec_forward eye target))
                 (spec_forward eye target)) with 0
      by (unfold dot, cross; simpl; ring).
    ring. }
  split.
  { rewrite dot_vneg_r, Hf. ring. }
  split; [now apply norm_pos | reflexivity].
Qed.

Lemma look_at_faces_target_witness :
  dot (vsub (mkVec 0 0 0) (mkVec 3 4 0))
      (col3 (look_at (mkVec 3 4 0) (mkVec 0 0 0) (mkVec 0 0 1)) 2)
  = - norm (vsub (mkVec 0 0 0) (mkVec 3 4 0)).
Proof.
  assert (H1 : mkVec 0 0 0 <> mkVec 3 4 0).
  { intros H. apply (f_equal vx) in H. simpl in H. lra. }
  assert (H2 : cross (vsub (mkVec 0 0 0) (mkVec 3 4 0)) (mkVec 0 0 1) <> vzero).
  { intros H. apply (f_equal vx) in H. simpl in H. lra. }
  exact (proj1 (proj2 (proj2
    (look_at_faces_target (mkVec 3 4 0) (mkVec 0 0 0) (mkVec 0 0 1) H1 H2)))).
Defined.

Lemma triple_product_cycle (a b c : vec3) : dot (cross a b) c = dot a (cross b c).
Proof. unfold dot, cross; simpl. ring. Qed.

(** X2: under its preconditions the frame [look_at] builds is upright with
    respect to the given up vector: the camera's right axis is orthogonal to
    it, and the camera's up axis has a positive component along it, equal to
    the norm of cross(forward, up). *)
Theorem look_at_upright (eye target up : vec3) :
  target <> eye ->
  cross (vsub target eye) up <> vzero ->
  let m := look_at eye target up in
  dot (col3 m 0) up = 0 /\
  dot (col3 m 1) up = norm (cross (normalize (vsub target eye)) up) /\
  0 < dot (col3 m 1) up.
Proof.
  intros Hne Hup m. subst m.
  assert (Hpre : look_at_pre eye target up) by (split; assumption).
  pose proof (spec_right_defined eye target up Hpre) as Hc.
  pose proof (norm_pos _ Hc) as Hn.
  rewrite look_at_columns.
  destruct (col3_of_columns (spec_right eye target up) (spec_trueUp eye target up)
              (vneg (spec_forward eye target)) eye) as (E0 & E1 & _).
  rewrite E0, E1. fold (spec_forward eye target).
  set (f := spec_forward eye target) in *.
  assert (Hright : dot (spec_right eye target up) up = 0).
  { unfold spec_right, normalize. fold f. rewrite dot_vdiv_l by lra.
    replace (dot (cross f up) up) with 0 by (unfold dot, cross; simpl; ring).
    field. lra. }
  assert (Hupv : dot (spec_trueUp eye target up) up = norm (cross f up)).
  { unfold spec_trueUp. rewrite triple_product_cycle. fold f.
    rewrite dot_comm. unfold spec_right. fold f. apply dot_normalize_self. exact Hc. }
  split; [exact Hright |]. split; [exact Hupv |]. rewrite Hupv. exact Hn.
Qed.

Lemma look_at_upright_witness :
  0 < dot (col3 (look_at (mkVec 3 4 0) (mkVec 0 0 0) (mkVec 0 0 1)) 1) (mkVec 0 0 1).
Proof.
  assert (H1 : mkVec 0 0 0 <> mkVec 3 4 0).
  { intros H. apply (f_equal vx) in H. simpl in H. lra. }
  assert (H2 : cross (vsub (mkVec 0 0 0) (mkVec 3 4 0)) (mkVec 0 0 1) <> vzero).
  { intros H. apply (f_equal vx) in H. simpl in H. lra. }
  exact (proj2 (proj2 (look_at_upright (mkVec 3 4 0) (mkVec 0 0 0) (mkVec 0 0 1) H1 H2))).
Defined.

(** ** look_at: what the frame depends on *)

Lemma vsub_vadd_vadd (a b t : vec3) : vsub (vadd a t) (vadd b t) = vsub a b.
Proof. apply vec3_eq; simpl; ring. Qed.

Lemma norm_vscale (k : R) (v : vec3) : 0 <= k -> norm (vscale k v) = k * norm v.
Proof.
  intros Hk. unfold norm.
  replace (dot (vscale k v) (vscale k v)) with ((k * k) * dot v v)
    by (unfold dot, vscale; simpl; ring).
  rewrite sqrt_mult; [| nra | apply dot_self_nonneg].
  now rewrite sqrt_square.
Qed.

Lemma normalize_vscale (k : R) (v : vec3) :
  0 < k -> v <> vzero -> normalize (vscale k v) = normalize v.
Proof.
  intros Hk Hv. pose proof (norm_pos v Hv) as Hn.
  unfold normalize. rewrite norm_vscale by lra.
  apply vec3_eq; simpl; field; lra.
Qed.

Lemma cross_vscale_r (a b : vec3) (k : R) : cross a (vscale k b) = vscale k (cross a b).
Proof. apply vec3_eq; simpl; ring. Qed.

Lemma vsub_vadd_l (a v : vec3) : vsub (vadd a v) a = v.
Proof. apply vec3_eq; simpl; ring. Qed.

(** X3: moving eye and target by the same vector moves the pose with them:
    under the preconditions of [look_at], the rotation columns are
    unchanged and the translation column is the moved eye. *)
Theorem look_at_translation (eye target up t : vec3) :
  target <> eye ->
  cross (vsub target eye) up <> vzero ->
  look_at_pre (vadd eye t) (vadd target t) up /\
  look_at (vadd eye t) (vadd target t) up
    = set_col3 3 (vadd eye t) (look_at eye target up) /\
  col3 (look_at (vadd eye t) (vadd target t) up) 0 = col3 (look_at eye target up) 0 /\
  col3 (look_at (vadd eye t) (vadd target t) up) 1 = col3 (look_at eye target up) 1 /\
  col3 (look_at (vadd eye t) (vadd target t) up) 2 = col3 (look_at eye target up) 2 /\
  col3 (look_at (vadd eye t) (vadd target t) up) 3 = vadd (col3 (look_at eye target up) 3) t.
Proof.
  intros Hne Hup.
  assert (Hm : look_at (vadd eye t) (vadd target t) up
               = set_col3 3 (vadd eye t) (look_at eye target up)).
  { unfold look_at. rewrite vsub_vadd_vadd. reflexivity. }
  split.
  { split.
    - intros H. apply Hne. apply vec3_eq.
      + apply (f_equal vx) in H. simpl in H. lra.
      + apply (f_equal vy) in H. simpl in H. lra.
      + apply (f_equal vz) in H. simpl in H. lra.
    - now rewrite vsub_vadd_vadd. }
  split; [exact Hm |].
  rewrite Hm, look_at_columns. repeat split.
Qed.

Lemma look_at_translation_witness :
  col3 (look_at (vadd (mkVec 3 4 0) (mkVec 1 1 1)) (vadd (mkVec 0 0 0) (mkVec 1 1 1))
                (mkVec 0 0 1)) 0
  = col3 (look_at (mkVec 3 4 0) (mkVec 0 0 0) (mkVec 0 0 1)) 0.
Proof.
  assert (H1 : mkVec 0 0 0 <> mkVec 3 4 0).
  { intros H. apply (f_equal vx) in H. simpl in H. lra. }
  assert (H2 : cross (vsub (mkVec 0 0 0) (mkVec 3 4 0)) (mkVec 0 0 1) <> vzero).
  { intros H. apply (f_equal vx) in H. simpl in H. lra. }
  exact (proj1 (proj2 (proj2
    (look_at_translation (mkVec 3 4 0) (mkVec 0 0 0) (mkVec 0 0 1) (mkVec 1 1 1) H1 H2)))).
Defined.

(** X4: under its preconditions [look_at] depends on the up vector and on
    the target only through their directions: scaling up by k > 0, or moving
    the target along the viewing ray to eye + k (target - eye) with k > 0,
    leaves the whole matrix unchanged. *)
Theorem look_at_directions_only (eye target up : vec3) (k : R) :
  target <> eye ->
  cross (vsub target eye) up <> vzero ->
  0 < k ->
  look_at eye target (vscale k up) = look_at eye target up /\
  look_at eye (vadd eye (vscale k (vsub target eye))) up = look_at eye target up.
Proof.
  intros Hne Hup Hk.
  assert (Hpre : look_at_pre eye target up) by (split; assumption).
  pose proof (spec_right_defined eye target up Hpre) as Hc.
  pose proof (vsub_nonzero _ _ Hne) as Hv.
  split.
  - rewrite !look_at_columns.
    assert (Hr : spec_right eye target (vscale k up) = spec_right eye target up).
    { unfold spec_right. rewrite cross_vscale_r. now apply normalize_vscale. }
    unfold spec_trueUp. now rewrite Hr.
  - rewrite !look_at_columns.
    assert (Hf : spec_forward eye (vadd eye (vscale k (vsub target eye)))
                 = spec_forward eye target).
    { unfold spec_forward. rewrite vsub_vadd_l. now apply normalize_vscale. }
    unfold spec_trueUp, spec_right. now rewrite Hf.
Qed.

Lemma look_at_directions_only_witness :
  look_at (mkVec 3 4 0) (mkVec 0 0 0) (vscale 5 (mkVec 0 0 1))
  = look_at (mkVec 3 4 0) (mkVec 0 0 0) (mkVec 0 0 1).
Proof.
  assert (H1 : mkVec 0 0 0 <> mkVec 3 4 0).
  { intros H. apply (f_equal vx) in H. simpl in H. lra. }
  assert (H2 : cross (vsub (mkVec 0 0 0) (mkVec 3 4 0)) (mkVec 0 0 1) <> vzero).
  { intros H. apply (f_equal vx) in H. simpl in H. lra. }
  assert (H3 : 0 < 5) by lra.
  exact (proj1 (look_at_directions_only (mkVec 3 4 0) (mkVec 0 0 0) (mkVec 0 0 1) 5
                  H1 H2 H3)).
Defined.

(** ** The orbit in closed form *)

Lemma normalize_of_unit (v : vec3) : dot v v = 1 -> normalize v = v.
Proof.
  intros Hv. unfold normalize, norm. rewrite Hv, sqrt_1.
  apply vec3_eq; simpl; field.
Qed.

Lemma sin_elevation_pos (N i : nat) : 0 < sin (elevation N i).
Proof.
  pose proof (elevation_closed_bounds N i) as [Hlo Hhi].
  pose proof PI_RGT_0 as Hpi. apply sin_gt_0; lra.
Qed.

Lemma cos_elevation_pos (N i : nat) : 0 < cos (elevation N i).
Proof.
  pose proof (elevation_closed_bounds N i) as [Hlo Hhi].
  pose proof PI_RGT_0 as Hpi. apply cos_gt_0; lra.
Qed.

(** The unit vector from the camera of frame [i] to the center. *)
Lemma orbit_forward (c : vec3) (d : R) (N i : nat) :
  0 < d ->
  spec_forward (camera_pos c d N i) c =
  mkVec (- (sin (elevation N i) * cos (azimuth N i)))
        (- (sin (elevation N i) * sin (azimuth N i)))
        (- cos (elevation N i)).
Proof.
  intros Hd. unfold spec_forward.
  set (n := mkVec (- (sin (elevation N i) * cos (azimuth N i)))
                  (- (sin (elevation N i) * sin (azimuth N i)))
                  (- cos (elevation N i))).
  assert (Hunit : dot n n = 1).
  { unfold n, dot; simpl.
    pose proof (sphere_point_unit (elevation N i) (azimuth N i)) as Hu. lra. }
  assert (Hn : n <> vzero).
  { intros H. rewrite H in Hunit. unfold dot, vzero in Hunit. simpl in Hunit. lra. }
  replace (vsub c (camera_pos c d N i)) with (vscale d n)
    by (unfold camera_pos, n; apply vec3_eq; simpl; ring).
  rewrite normalize_vscale by assumption. now apply normalize_of_unit.
Qed.

Lemma orbit_right (c : vec3) (d : R) (N i : nat) :
  0 < d ->
  spec_right (camera_pos c d N i) c up_vector =
  mkVec (- sin (azimuth N i)) (cos (azimuth N i)) 0.
Proof.
  intros Hd. unfold spec_right. rewrite orbit_forward by exact Hd.
  set (r := mkVec (- sin (azimuth N i)) (cos (azimuth N i)) 0).
  pose proof (sin2_cos2 (azimuth N i)) as Hu. unfold Rsqr in Hu.
  assert (Hunit : dot r r = 1) by (unfold r, dot; simpl; lra).
  assert (Hr : r <> vzero).
  { intros H. rewrite H in Hunit. unfold dot, vzero in Hunit. simpl in Hunit. lra. }
  match goal with
  | |- normalize ?v = _ =>
      replace v with (vscale (sin (elevation N i)) r)
        by (unfold r, up_vector; apply vec3_eq; simpl; ring)
  end.
  rewrite normalize_vscale; [now apply normalize_of_unit | apply sin_elevation_pos | exact Hr].
Qed.

Lemma camera_pose_columns (c : vec3) (d : R) (N i : nat) :
  0 < d ->
  camera_pose c d N i =
  of_columns
    (mkVec (- sin (azimuth N i)) (cos (azimuth N i)) 0)
    (mkVec (- (cos (elevation N i) * cos (azimuth N i)))
           (- (cos (elevation N i) * sin (azimuth N i)))
           (sin (elevation N i)))
    (mkVec (sin (elevation N i) * cos (azimuth N i))
           (sin (elevation N i) * sin (azimuth N i))
           (cos (elevation N i)))
    (camera_pos c d N i).
Proof.
  intros Hd. unfold camera_pose. rewrite look_at_columns.
  unfold spec_trueUp. rewrite orbit_right, orbit_forward by exact Hd.
  pose proof (sin2_cos2 (azimuth N i)) as Hu. unfold Rsqr in Hu.
  f_equal.
  - apply vec3_eq; simpl; try ring.
    transitivity (sin (elevation N i)
                  * (sin (azimuth N i) * sin (azimuth N i)
                     + cos (azimuth N i) * cos (azimuth N i))); [ring |].
    rewrite Hu. ring.
  - apply vec3_eq; simpl; ring.
Qed.

(** X5: around a bounding volume of positive extent the pose of frame i has
    the closed form: right = (-sin theta, cos theta, 0),
    up = (-cos phi cos theta, -cos phi sin theta, sin phi),
    back = (sin phi cos theta, sin phi sin theta, cos phi), translation =
    the camera position.  So the camera never rolls (its right axis is
    horizontal) and its up axis always points to the upper half space. *)
Theorem orbit_pose_closed_form (c : vec3) (d : R) (N i : nat) :
  0 < d ->
  let theta := azimuth N i in
  let phi := elevation N i in
  let m := camera_pose c d N i in
  m = [ [- sin theta; - (cos phi * cos theta); sin phi * cos theta; vx (camera_pos c d N i)];
        [cos theta;   - (cos phi * sin theta); sin phi * sin theta; vy (camera_pos c d N i)];
        [0;           sin phi;                 cos phi;             vz (camera_pos c d N i)];
        [0; 0; 0; 1] ] /\
  mget m 2 0 = 0 /\
  0 < mget m 2 1 /\
  0 < mget m 2 2.
Proof.
  intros Hd theta phi m. subst m theta phi.
  rewrite camera_pose_columns by exact Hd.
  split; [reflexivity |]. split; [reflexivity |].
  split; [apply sin_elevation_pos | apply cos_elevation_pos].
Qed.

Lemma orbit_pose_closed_form_witness :
  mget (camera_pose (mkVec 0 0 0) 2 4 1) 2 0 = 0.
Proof.
  assert (Hd : 0 < 2) by lra.
  exact (proj1 (proj2 (orbit_pose_closed_form (mkVec 0 0 0) 2 4 1 Hd))).
Defined.

(** X6: the orientation of frame i does not depend on the mesh: for any two
    centers and any two positive camera distances the rotation columns of
    the poses are the same; only the translation column differs. *)
Theorem orbit_rotation_independent_of_mesh (c c' : vec3) (d d' : R) (N i : nat) :
  0 < d -> 0 < d' ->
  col3 (camera_pose c d N i) 0 = col3 (camera_pose c' d' N i) 0 /\
  col3 (camera_pose c d N i) 1 = col3 (camera_pose c' d' N i) 1 /\
  col3 (camera_pose c d N i) 2 = col3 (camera_pose c' d' N i) 2 /\
  col3 (camera_pose c d N i) 3 = camera_pos c d N i /\
  col3 (camera_pose c' d' N i) 3 = camera_pos c' d' N i.
Proof.
  intros Hd Hd'. rewrite !camera_pose_columns by assumption.
  repeat split; now destruct (camera_pos c d N i), (camera_pos c' d' N i).
Qed.

Lemma orbit_rotation_independent_of_mesh_witness :
  col3 (camera_pose (mkVec 0 0 0) 2 4 1) 0 = col3 (camera_pose (mkVec 1 2 3) 7 4 1) 0.
Proof.
  assert (Hd : 0 < 2) by lra. assert (Hd' : 0 < 7) by lra.
  exact (proj1 (orbit_rotation_independent_of_mesh (mkVec 0 0 0) (mkVec 1 2 3) 2 7 4 1
                  Hd Hd')).
Defined.

(** ** Coverage of the orbit *)

Lemma azimuth_increasing (N i j : nat) :
  (i < j)%nat -> (j < N)%nat -> azimuth N i < azimuth N j.
Proof.
  intros Hij HjN. unfold azimuth.
  pose proof PI_RGT_0 as Hpi.
  assert (HN : 0 < INR N) by (apply lt_0_INR; lia).
  pose proof (lt_INR _ _ Hij) as Hlt.
  apply Rmult_lt_compat_r; [now apply Rinv_0_lt_compat |].
  apply Rmult_lt_compat_l; lra.
Qed.

Lemma azimuth_range (N i : nat) : (i < N)%nat -> 0 <= azimuth N i < 2 * PI.
Proof.
  intros Hi. unfold azimuth.
  pose proof PI_RGT_0 as Hpi.
  assert (HN : 0 < INR N) by (apply lt_0_INR; lia).
  pose proof (pos_INR i) as H0. pose proof (lt_INR _ _ Hi) as Hlt.
  split.
  - apply Rmult_le_pos; [apply Rmult_le_pos; lra |].
    apply Rlt_le. now apply Rinv_0_lt_compat.
  - apply (Rmult_lt_reg_r (INR N)); [exact HN |].
    replace (2 * PI * INR i / INR N * INR N) with (2 * PI * INR i) by (field; lra).
    apply Rmult_lt_compat_l; lra.
Qed.

(** X7: for a view count N the azimuths of frames 0..N-1 start at 0, stay
    below 2 pi, increase strictly with the index and are evenly spaced by
    2 pi / N: one revolution, no azimuth repeated. *)
Theorem azimuth_one_even_revolution (N i j : nat) :
  (i < j)%nat -> (j < N)%nat ->
  azimuth N 0 = 0 /\
  0 <= azimuth N i /\
  azimuth N i < azimuth N j /\
  azimuth N j < 2 * PI /\
  azimuth N (S i) - azimuth N i = 2 * PI / INR N.
Proof.
  intros Hij HjN.
  split; [apply azimuth_first |].
  split; [apply azimuth_range; lia |].
  split; [now apply azimuth_increasing |].
  split; [now apply azimuth_range |].
  unfold azimuth. rewrite S_INR.
  assert (HN : 0 < INR N) by (apply lt_0_INR; lia).
  field. lra.
Qed.

Lemma azimuth_one_even_revolution_witness :
  azimuth 4 1 < azimuth 4 3.
Proof.
  apply (azimuth_one_even_revolution 4 1 3); lia.
Defined.

(** X8: with a positive camera distance d every camera is strictly above
    the horizontal plane through the center, at a height between
    d cos(3 pi/8) and d cos(pi/8), and at horizontal distance d sin(phi),
    at least d sin(pi/8) > 0, from the vertical axis through the center:
    no view from below and none from straight above. *)
Theorem cameras_above_center (c : vec3) (d : R) (N i : nat) :
  0 < d ->
  let p := camera_pos c d N i in
  vz c < vz p /\
  vz c + d * cos (3 * PI / 8) <= vz p <= vz c + d * cos (PI / 8) /\
  (vx p - vx c) * (vx p - vx c) + (vy p - vy c) * (vy p - vy c)
    = (d * sin (elevation N i)) * (d * sin (elevation N i)) /\
  0 < d * sin (PI / 8) <= d * sin (elevation N i).
Proof.
  intros Hd p. subst p.
  pose proof (elevation_closed_bounds N i) as [Hlo Hhi].
  pose proof PI_RGT_0 as Hpi.
  pose proof (cos_elevation_pos N i) as Hcos.
  assert (Hc1 : cos (3 * PI / 8) <= cos (elevation N i)) by (apply cos_decr_1; lra).
  assert (Hc2 : cos (elevation N i) <= cos (PI / 8)) by (apply cos_decr_1; lra).
  assert (Hs1 : sin (PI / 8) <= sin (elevation N i)) by (apply sin_incr_1; lra).
  assert (Hs0 : 0 < sin (PI / 8)) by (apply sin_gt_0; lra).
  pose proof (sin2_cos2 (azimuth N i)) as Hu. unfold Rsqr in Hu.
  unfold camera_pos; simpl.
  split; [nra |]. split; [split; nra |]. split.
  - transitivity ((d * sin (elevation N i)) * (d * sin (elevation N i))
                  * (sin (azimuth N i) * sin (azimuth N i)
                     + cos (azimuth N i) * cos (azimuth N i))); [ring |].
    rewrite Hu. ring.
  - split; [apply Rmult_lt_0_compat; assumption | apply Rmult_le_compat_l; lra].
Qed.

Lemma cameras_above_center_witness :
  vz (mkVec 0 0 0) < vz (camera_pos (mkVec 0 0 0) 2 4 1).
Proof.
  assert (Hd : 0 < 2) by lra.
  exact (proj1 (cameras_above_center (mkVec 0 0 0) 2 4 1 Hd)).
Defined.

Lemma cos_one_small (x : R) : - (2 * PI) < x < 2 * PI -> cos x = 1 -> x = 0.
Proof.
  intros [Hlo Hhi] Hcos. pose proof PI_RGT_0 as Hpi.
  assert (Hhalf : sin (x / 2) = 0).
  { pose proof (cos_2a_sin (x / 2)) as H.
    replace (2 * (x / 2)) with x in H by field. nra. }
  destruct (Rtotal_order x 0) as [Hneg | [Hz | Hpos]]; [| exact Hz |].
  - pose proof (sin_lt_0_var (x / 2)). lra.
  - pose proof (sin_gt_0 (x / 2)). lra.
Qed.

Lemma same_direction_same_angle (a b : R) :
  0 <= a < 2 * PI -> 0 <= b < 2 * PI ->
  cos a = cos b -> sin a = sin b -> a = b.
Proof.
  intros Ha Hb Hc Hs.
  assert (H1 : cos (a - b) = 1).
  { rewrite cos_minus, Hc, Hs. pose proof (sin2_cos2 b) as H. unfold Rsqr in H. lra. }
  pose proof (cos_one_small (a - b)). lra.
Qed.

Lemma elevation_of_cos (N i j : nat) :
  cos (elevation N i) = cos (elevation N j) -> elevation N i = elevation N j.
Proof.
  intros Hc.
  pose proof (elevation_closed_bounds N i) as [Hli Hhi].
  pose proof (elevation_closed_bounds N j) as [Hlj Hhj].
  pose proof PI_RGT_0 as Hpi.
  destruct (Rtotal_order (elevation N i) (elevation N j)) as [Hlt | [Heq | Hgt]];
    [| exact Heq |].
  - pose proof (cos_decreasing_1 (elevation N i) (elevation N j)). lra.
  - pose proof (cos_decreasing_1 (elevation N j) (elevation N i)). lra.
Qed.

Lemma camera_pos_injective (c : vec3) (d : R) (N i j : nat) :
  0 < d -> (i < N)%nat -> (j < N)%nat ->
  camera_pos c d N i = camera_pos c d N j -> i = j.
Proof.
  intros Hd Hi Hj Heq.
  pose proof (f_equal vx Heq) as Hx. pose proof (f_equal vy Heq) as Hy.
  pose proof (f_equal vz Heq) as Hz.
  unfold camera_pos in Hx, Hy, Hz. simpl in Hx, Hy, Hz.
  assert (Hcos : cos (elevation N i) = cos (elevation N j)) by nra.
  pose proof (elevation_of_cos N i j Hcos) as Hphi.
  rewrite <- Hphi in Hx, Hy.
  pose proof (sin_elevation_pos N i) as Hsin.
  assert (Hds : 0 < d * sin (elevation N i)) by (apply Rmult_lt_0_compat; assumption).
  assert (Hct : cos (azimuth N i) = cos (azimuth N j)).
  { apply (Rmult_eq_reg_l (d * sin (elevation N i))); lra. }
  assert (Hst : sin (azimuth N i) = sin (azimuth N j)).
  { apply (Rmult_eq_reg_l (d * sin (elevation N i))); lra. }
  pose proof (same_direction_same_angle _ _ (azimuth_range N i Hi) (azimuth_range N j Hj)
                Hct Hst) as Hth.
  destruct (Nat.lt_trichotomy i j) as [Hlt | [Heq' | Hgt]]; [| exact Heq' |].
  - pose proof (azimuth_increasing N i j Hlt Hj). lra.
  - pose proof (azimuth_increasing N j i Hgt Hi). lra.
Qed.

(** X9: with a positive camera distance no two frames of a run share a
    camera position: distinct indices below N give distinct positions. *)
Theorem camera_positions_distinct (c : vec3) (d : R) (N i j : nat) :
  0 < d -> (i < N)%nat -> (j < N)%nat -> i <> j ->
  camera_pos c d N i <> camera_pos c d N j.
Proof.
  intros Hd Hi Hj Hneq Heq. apply Hneq.
  exact (camera_pos_injective c d N i j Hd Hi Hj Heq).
Qed.

Lemma camera_positions_distinct_witness :
  camera_pos (mkVec 0 0 0) 2 4 1 <> camera_pos (mkVec 0 0 0) 2 4 3.
Proof.
  assert (Hd : 0 < 2) by lra.
  apply (camera_positions_distinct (mkVec 0 0 0) 2 4 1 3 Hd); lia.
Defined.

(** ** The loader: arrays and buffers *)

Lemma triples_flatten {A : Type} (m : nat) :
  forall l : list A,
    List.length l = (3 * m)%nat ->
    flatten3 (triples l) = l /\ List.length (triples l) = m.
Proof.
  induction m as [| m IH]; intros l Hl.
  - destruct l; [split; reflexivity | simpl in Hl; lia].
  - destruct l as [| a [| b [| c tl]]]; simpl in Hl; try lia.
    destruct (IH tl) as [Hf Hn]; [lia |].
    cbn [triples flatten3 flat_map List.length app] in *.
    unfold flatten3 in Hf. rewrite Hf, Hn. split; reflexivity.
Qed.

Lemma pairs_length {A : Type} (m : nat) :
  forall l : list A, List.length l = (2 * m)%nat -> List.length (pairs l) = m.
Proof.
  induction m as [| m IH]; intros l Hl.
  - destruct l; [reflexivity | simpl in Hl; lia].
  - destruct l as [| a [| b tl]]; simpl in Hl; try lia.
    cbn [pairs List.length]. rewrite IH; [reflexivity | lia].
Qed.

Lemma quads_length {A : Type} (m : nat) :
  forall l : list A, List.length l = (4 * m)%nat -> List.length (quads l) = m.
Proof.
  induction m as [| m IH]; intros l Hl.
  - destruct l; [reflexivity | simpl in Hl; lia].
  - destruct l as [| a [| b [| c [| d tl]]]]; simpl in Hl; try lia.
    cbn [quads List.length]. rewrite IH; [reflexivity | lia].
Qed.

Lemma mod_0_multiple (n k : nat) : k <> 0%nat -> (n mod k = 0)%nat -> n = (k * (n / k))%nat.
Proof. intros Hk Hmod. rewrite (Nat.div_mod_eq n k) at 1. rewrite Hmod. lia. Qed.

(** X10: [reshape(-1, 3)] either fails, exactly when the size is not a
    multiple of 3, or returns rows that hold the same entries in the same
    order: reading the rows back in C order gives the array, and there are
    size / 3 rows. *)
Theorem reshape3_keeps_entries {A : Type} (l : list A) :
  match reshape3 l with
  | inr rows => flatten3 rows = l /\ List.length l = (3 * List.length rows)%nat
  | inl e => e = ReshapeError /\ (List.length l mod 3 <> 0)%nat
  end.
Proof.
  unfold reshape3. destruct (Nat.eqb_spec (List.length l mod 3) 0) as [Hmod | Hmod].
  - pose proof (mod_0_multiple _ 3 ltac:(lia) Hmod) as Hlen.
    destruct (triples_flatten (List.length l / 3) l Hlen) as [Hf Hn].
    split; [exact Hf | lia].
  - split; [reflexivity | exact Hmod].
Qed.

Lemma slice_length (blob : list Byte.byte) (start len : nat) :
  List.length (slice blob start (start + len)) = Nat.min len (List.length blob - start).
Proof.
  unfold slice. rewrite length_firstn, length_skipn.
  replace (start + len - start)%nat with len by lia. reflexivity.
Qed.

(** X11: slicing the binary blob for a buffer view never raises: a view
    that lies inside the blob yields exactly byteLength bytes, and a view
    that reaches past the end of the blob is silently cut to the bytes that
    exist (none when the offset is past the end). *)
Theorem view_data_is_clamped (blob : list Byte.byte) (view : BufferView) :
  exists data : list Byte.byte,
    view_data (Some blob) view = inr data /\
    List.length data = Nat.min (byteLength view) (List.length blob - byteOffset view) /\
    ((byteOffset view + byteLength view <= List.length blob)%nat ->
     List.length data = byteLength view) /\
    ((List.length blob <= byteOffset view)%nat -> data = []).
Proof.
  eexists. split; [reflexivity |].
  pose proof (slice_length blob (byteOffset view) (byteLength view)) as Hlen.
  split; [exact Hlen |]. split.
  - intros Hin. rewrite Hlen. lia.
  - intros Hout. apply length_zero_iff_nil. rewrite Hlen. lia.
Qed.

Lemma uint16_le_bound (p : Byte.byte * Byte.byte) : (N.of_nat (uint16_le p) <= 65535)%N.
Proof.
  destruct p as [b0 b1]. unfold uint16_le. rewrite N2Nat.id.
  pose proof (Byte.to_N_bounded b0). pose proof (Byte.to_N_bounded b1). lia.
Qed.

Lemma uint32_le_bound (q : Byte.byte * Byte.byte * Byte.byte * Byte.byte) :
  (N.of_nat (uint32_le q) <= 4294967295)%N.
Proof.
  destruct q as [[[b0 b1] b2] b3]. unfold uint32_le. rewrite N2Nat.id.
  pose proof (Byte.to_N_bounded b0). pose proof (Byte.to_N_bounded b1).
  pose proof (Byte.to_N_bounded b2). pose proof (Byte.to_N_bounded b3). lia.
Qed.

Lemma load_indices_explicit (gltf : GLTF2) (primitive : Primitive) (vs : list vec3)
    (k v : nat) (acc : Accessor) (bv : BufferView) (blob : list Byte.byte) :
  indices primitive = Some k ->
  nth_error (accessors gltf) k = Some acc ->
  bufferView acc = Some v ->
  nth_error (bufferViews gltf) v = Some bv ->
  binary_blob gltf = Some blob ->
  load_indices gltf primitive vs =
  rbind (if (componentType acc =? 5123)%Z
         then frombuffer_uint16 (slice blob (byteOffset bv) (byteOffset bv + byteLength bv))
         else frombuffer_uint32 (slice blob (byteOffset bv) (byteOffset bv + byteLength bv)))
        reshape3.
Proof.
  intros Hk Hacc Hv Hbv Hblob. unfold load_indices, subscript, view_data.
  rewrite Hk, Hacc. cbn [rbind]. rewrite Hv, Hbv. cbn [rbind]. rewrite Hblob. cbn [rbind].
  destruct (componentType acc =? 5123)%Z; reflexivity.
Qed.

(** X12: when the primitive has an index accessor with a bufferView, the
    faces are decoded from the bytes of that view alone: as little-endian
    unsigned shorts when componentType is 5123, six bytes per face and every
    index at most 65535, and as little-endian 32-bit integers for every
    other componentType (the unsigned-byte type 5121 included), twelve bytes
    per face; the accessor's count and byteOffset and the number of
    vertices play no part. *)
Theorem explicit_indices_decoding (gltf : GLTF2) (primitive : Primitive) (vs : list vec3)
    (k v : nat) (acc : Accessor) (bv : BufferView) (blob : list Byte.byte)
    (fs : list (nat * nat * nat)) :
  indices primitive = Some k ->
  nth_error (accessors gltf) k = Some acc ->
  bufferView acc = Some v ->
  nth_error (bufferViews gltf) v = Some bv ->
  binary_blob gltf = Some blob ->
  load_indices gltf primitive vs = inr fs ->
  let data := slice blob (byteOffset bv) (byteOffset bv + byteLength bv) in
  (forall vs' : list vec3, load_indices gltf primitive vs' = inr fs) /\
  if (componentType acc =? 5123)%Z
  then List.length data = (6 * List.length fs)%nat /\
       flatten3 fs = map uint16_le (pairs data) /\
       Forall (fun n => (N.of_nat n <= 65535)%N) (flatten3 fs)
  else List.length data = (12 * List.length fs)%nat /\
       flatten3 fs = map uint32_le (quads data) /\
       Forall (fun n => (N.of_nat n <= 4294967295)%N) (flatten3 fs).
Proof.
  intros Hk Hacc Hv Hbv Hblob Hload data.
  split.
  { intros vs'. rewrite (load_indices_explicit _ _ vs' _ _ _ _ _ Hk Hacc Hv Hbv Hblob).
    rewrite <- Hload. symmetry.
    apply (load_indices_explicit _ _ vs _ _ _ _ _ Hk Hacc Hv Hbv Hblob). }
  rewrite (load_indices_explicit _ _ vs _ _ _ _ _ Hk Hacc Hv Hbv Hblob) in Hload.
  fold data in Hload.
  destruct (componentType acc =? 5123)%Z.
  - unfold frombuffer_uint16 in Hload.
    destruct (Nat.eqb_spec (List.length data mod 2) 0) as [Hmod | Hmod]; [| discriminate].
    cbn [rbind] in Hload.
    pose proof (reshape3_keeps_entries (map uint16_le (pairs data))) as Hr.
    rewrite Hload in Hr. destruct Hr as [Hflat Hlen].
    pose proof (mod_0_multiple _ 2 ltac:(lia) Hmod) as Hd.
    rewrite length_map, (pairs_length _ _ Hd) in Hlen.
    split; [lia |]. split; [exact Hflat |].
    rewrite Hflat. apply Forall_forall. intros n Hn.
    apply in_map_iff in Hn as (p & <- & _). apply uint16_le_bound.
  - unfold frombuffer_uint32 in Hload.
    destruct (Nat.eqb_spec (List.length data mod 4) 0) as [Hmod | Hmod]; [| discriminate].
    cbn [rbind] in Hload.
    pose proof (reshape3_keeps_entries (map uint32_le (quads data))) as Hr.
    rewrite Hload in Hr. destruct Hr as [Hflat Hlen].
    pose proof (mod_0_multiple _ 4 ltac:(lia) Hmod) as Hd.
    rewrite length_map, (quads_length _ _ Hd) in Hlen.
    split; [lia |]. split; [exact Hflat |].
    rewrite Hflat. apply Forall_forall. intros n Hn.
    apply in_map_iff in Hn as (q & <- & _). apply uint32_le_bound.
Qed.

Lemma explicit_indices_decoding_witness :
  List.length (slice [Byte.x00; Byte.x00; Byte.x00; Byte.x00; Byte.x00; Byte.x00] 0 (0 + 6))
  = (6 * List.length [(0, 0, 0)%nat])%nat.
Proof.
  exact (proj1 (proj2
    (explicit_indices_decoding point_gltf (mkPrimitive (Some 0%nat) (Some 1%nat)) [vzero]
       1 0 (mkAccessor (Some 0%nat) 5123) (mkBufferView 0 6)
       [Byte.x00; Byte.x00; Byte.x00; Byte.x00; Byte.x00; Byte.x00] [(0, 0, 0)%nat]
       eq_refl eq_refl eq_refl eq_refl eq_refl eq_refl))).
Defined.

Lemma load_vertices_explicit
    (float32_le : Byte.byte * Byte.byte * Byte.byte * Byte.byte -> R)
    (gltf : GLTF2) (primitive : Primitive)
    (k v : nat) (acc : Accessor) (bv : BufferView) (blob : list Byte.byte) :
  POSITION primitive = Some k ->
  nth_error (accessors gltf) k = Some acc ->
  bufferView acc = Some v ->
  nth_error (bufferViews gltf) v = Some bv ->
  binary_blob gltf = Some blob ->
  load_vertices float32_le gltf primitive =
  rbind (frombuffer_float32 float32_le
           (slice blob (byteOffset bv) (byteOffset bv + byteLength bv)))
        (fun flat => rbind (reshape3 flat) (fun rows => inr (map vec3_of_row rows))).
Proof.
  intros Hk Hacc Hv Hbv Hblob. unfold load_vertices, subscript_opt, subscript, view_data.
  rewrite Hk, Hacc. cbn [rbind]. rewrite Hv, Hbv. cbn [rbind]. rewrite Hblob. reflexivity.
Qed.

(** X13: when the position accessor has a bufferView, the vertices are the
    float triples of the bytes of that view, twelve bytes per vertex; the
    load of the vertices fails with the buffer-size error when the number
    of bytes is not a multiple of 4 and with the reshape error when it is a
    multiple of 4 but not of 12. *)
Theorem vertices_from_buffer
    (float32_le : Byte.byte * Byte.byte * Byte.byte * Byte.byte -> R)
    (gltf : GLTF2) (primitive : Primitive)
    (k v : nat) (acc : Accessor) (bv : BufferView) (blob : list Byte.byte) :
  POSITION primitive = Some k ->
  nth_error (accessors gltf) k = Some acc ->
  bufferView acc = Some v ->
  nth_error (bufferViews gltf) v = Some bv ->
  binary_blob gltf = Some blob ->
  let data := slice blob (byteOffset bv) (byteOffset bv + byteLength bv) in
  match load_vertices float32_le gltf primitive with
  | inr vs =>
      List.length data = (12 * List.length vs)%nat /\
      vs = map vec3_of_row (triples (map float32_le (quads data)))
  | inl e =>
      (e = BufferSizeError /\ (List.length data mod 4 <> 0)%nat) \/
      (e = ReshapeError /\ (List.length data mod 4 = 0)%nat /\
       (List.length data mod 12 <> 0)%nat)
  end.
Proof.
  intros Hk Hacc Hv Hbv Hblob data.
  rewrite (load_vertices_explicit _ _ _ _ _ _ _ _ Hk Hacc Hv Hbv Hblob). fold data.
  unfold frombuffer_float32.
  destruct (Nat.eqb_spec (List.length data mod 4) 0) as [Hmod | Hmod];
    [| left; split; [reflexivity | exact Hmod]].
  cbn [rbind].
  pose proof (mod_0_multiple _ 4 ltac:(lia) Hmod) as Hd.
  pose proof (reshape3_keeps_entries (map float32_le (quads data))) as Hr.
  unfold reshape3 in *.
  rewrite length_map, (quads_length _ _ Hd) in *.
  destruct (Nat.eqb_spec ((List.length data / 4) mod 3) 0) as [Hq | Hq]; cbn [rbind].
  - destruct Hr as [_ Hlen]. rewrite length_map. split; [lia | reflexivity].
  - right. split; [reflexivity |]. split; [exact Hmod |].
    intros H12. apply Hq.
    pose proof (mod_0_multiple _ 12 ltac:(lia) H12) as Hd12.
    assert (Hq3 : (List.length data / 4 = (List.length data / 12) * 3)%nat) by lia.
    rewrite Hq3. apply Nat.Div0.mod_mul.
Qed.

Lemma vertices_from_buffer_witness :
  match load_vertices (fun _ => 0) triangle_gltf (mkPrimitive (Some 0%nat) None) with
  | inr vs =>
      List.length (slice (repeat Byte.x00 36) 0 (0 + 36)) = (12 * List.length vs)%nat /\
      vs = map vec3_of_row
             (triples (map (fun _ => 0) (quads (slice (repeat Byte.x00 36) 0 (0 + 36)))))
  | inl e =>
      (e = BufferSizeError /\
       (List.length (slice (repeat Byte.x00 36) 0 (0 + 36)) mod 4 <> 0)%nat) \/
      (e = ReshapeError /\
       (List.length (slice (repeat Byte.x00 36) 0 (0 + 36)) mod 4 = 0)%nat /\
       (List.length (slice (repeat Byte.x00 36) 0 (0 + 36)) mod 12 <> 0)%nat)
  end.
Proof.
  exact (vertices_from_buffer (fun _ => 0) triangle_gltf (mkPrimitive (Some 0%nat) None)
           0 0 (mkAccessor (Some 0%nat) 5126) (mkBufferView 0 36) (repeat Byte.x00 36)
           eq_refl eq_refl eq_refl eq_refl eq_refl).
Defined.



(** X15: a successful load never returns a mesh without vertices: when the
    vertex array is empty (a position view of no bytes) and the indices
    load, the loader fails at the bounds message of line 89 with the
    zero-size reduction error. *)
Theorem empty_vertex_array_is_rejected
    (float32_le : Byte.byte * Byte.byte * Byte.byte * Byte.byte -> R)
    (gltf : GLTF2) :
  (forall mesh : Trimesh,
     load_glb_with_pygltflib float32_le gltf = inr mesh -> vertices mesh <> []) /\
  (forall (primitive : Primitive) (fs : list (nat * nat * nat)),
     first_primitive gltf = inr primitive ->
     load_vertices float32_le gltf primitive = inr [] ->
     load_indices gltf primitive [] = inr fs ->
     load_glb_with_pygltflib float32_le gltf = inl ZeroSizeReduction).
Proof.
  split.
  - intros mesh. apply loaded_mesh_has_vertices.
  - intros primitive fs Hp Hvs Hfs. unfold load_glb_with_pygltflib.
    rewrite Hp. cbn [rbind]. rewrite Hvs. cbn [rbind]. rewrite Hfs. reflexivity.
Qed.

Lemma empty_vertex_array_is_rejected_witness :
  load_glb_with_pygltflib (fun _ => 0)
    (mkGLTF2 [mkMesh [mkPrimitive (Some 0%nat) None]] [mkAccessor (Some 0%nat) 5126]
             [mkBufferView 0 0] (Some []))
  = inl ZeroSizeReduction.
Proof.
  exact (proj2 (empty_vertex_array_is_rejected (fun _ => 0)
                  (mkGLTF2 [mkMesh [mkPrimitive (Some 0%nat) None]]
                           [mkAccessor (Some 0%nat) 5126] [mkBufferView 0 0] (Some [])))
               (mkPrimitive (Some 0%nat) None) [] eq_refl eq_refl eq_refl).
Defined.

(** ** Output names *)

Lemma string_app_inv_head (p a b : string) : (p ++ a = p ++ b)%string -> a = b.
Proof.
  induction p as [| ch p IH]; cbn [append]; [auto |].
  intros [= H]. now apply IH.
Qed.

Lemma string_app_inv_tail (s : string) :
  forall a b : string, (a ++ s = b ++ s)%string -> a = b.
Proof.
  induction a as [| ch a IH]; intros b H.
  - destruct b as [| ch' b]; [reflexivity |].
    apply (f_equal String.length) in H. cbn [append String.length] in H.
    rewrite string_length_append in H. lia.
  - destruct b as [| ch' b].
    + apply (f_equal String.length) in H. cbn [append String.length] in H.
      rewrite string_length_append in H. lia.
    + cbn [append] in H. injection H as -> H. f_equal. now apply IH.
Qed.

Lemma format_04d_inj (i j : nat) : format_04d i = format_04d j -> i = j.
Proof.
  intros H. apply (f_equal decimal_value) in H.
  rewrite !format_04d_value in H. now injection H.
Qed.

Lemma image_name_inj (i j : nat) : image_name i = image_name j -> i = j.
Proof.
  unfold image_name. intros H.
  apply string_app_inv_head, string_app_inv_tail in H. now apply format_04d_inj.
Qed.

Lemma image_path_inj (output_dir : string) (i j : nat) :
  path_join output_dir (image_name i) = path_join output_dir (image_name j) -> i = j.
Proof.
  unfold path_join. intros H.
  apply string_app_inv_head, string_app_inv_head in H. now apply image_name_inj.
Qed.

Lemma image_paths_NoDup (output_dir : string) (k : nat) :
  NoDup (map (fun i => path_join output_dir (image_name i)) (seq 0 k)).
Proof.
  apply NoDup_map_NoDup_ForallPairs; [| apply seq_NoDup].
  intros i j _ _. apply image_path_inj.
Qed.

(** X16: file names never collide: different frame indices give different
    image names and different manifest file paths, and in every run, however
    it ends, the images saved are pairwise distinct paths, so no frame
    overwrites the image of another. *)
Theorem image_names_never_collide
    (float32_le : Byte.byte * Byte.byte * Byte.byte * Byte.byte -> R)
    (E : env) (gltf : GLTF2) (output_dir : string) (N : nat) :
  (forall i j : nat, image_name i = image_name j -> i = j) /\
  (forall (p q : matrix) (i j : nat),
     file_path (transform_of p i) = file_path (transform_of q j) -> i = j) /\
  NoDup (saved_images (final_world (render_glb_views float32_le E gltf output_dir N))).
Proof.
  split; [exact image_name_inj |]. split.
  { intros p q i j H. cbn [transform_of file_path] in H.
    apply (string_app_inv_head "./image_"), string_app_inv_tail in H.
    now apply format_04d_inj. }
  pose proof (run_ends float32_le E gltf output_dir N) as Hend.
  set (r := outcome _) in *. set (w := final_world _) in *. clearbody r w.
  destruct Hend as [Hmk | e Hmk Hload | mesh Hmk Hload Hset | mesh Hmk Hload Hset Hb
                   | mesh b j Hmk Hload Hset Hb Hff | mesh b Hmk Hload Hset Hb Hff Hman
                   | mesh b Hmk Hload Hset Hb Hff Hman Hcl
                   | mesh b Hmk Hload Hset Hb Hff Hman Hcl];
    try (cbn; constructor).
  - rewrite (saved_images_of_frames E) by apply saved_images_failed_frame.
    apply image_paths_NoDup.
  - rewrite <- (app_nil_r (flat_map _ _)).
    rewrite (saved_images_of_frames E) by reflexivity. apply image_paths_NoDup.
  - rewrite (saved_images_of_frames E) by reflexivity. apply image_paths_NoDup.
  - rewrite (saved_images_of_frames E) by reflexivity. apply image_paths_NoDup.
Qed.

Lemma format_04d_four_digits_check :
  forallb (fun i => (String.length (format_04d i) =? 4)%nat) (seq 0 (100 * 100)) = true.
Proof. vm_compute. reflexivity. Qed.

(** X17: for every frame index below 10000 the index is written with
    exactly four digits, so that the image name has 14 characters; the
    names of a run of up to 10000 views all have the same width. *)
Theorem image_name_fixed_width (i : nat) :
  (i < 100 * 100)%nat ->
  String.length (format_04d i) = 4%nat /\ String.length (image_name i) = 14%nat.
Proof.
  intros Hi.
  assert (H4 : String.length (format_04d i) = 4%nat).
  { pose proof format_04d_four_digits_check as Hall.
    rewrite forallb_forall in Hall.
    apply Nat.eqb_eq. apply Hall. apply in_seq. lia. }
  split; [exact H4 |].
  unfold image_name. cbn [append String.length].
  rewrite string_length_append, H4. reflexivity.
Qed.

Lemma image_name_fixed_width_witness :
  String.length (format_04d 42) = 4%nat /\ String.length (image_name 42) = 14%nat.
Proof.
  apply (image_name_fixed_width 42). lia.
Defined.

(** ** The scene during a run *)

Lemma cameras_attached_app (w1 w2 : world) :
  forall n, cameras_attached (w1 ++ w2) n = cameras_attached w2 (cameras_attached w1 n).
Proof.
  induction w1 as [| e w1 IH]; intros n; [reflexivity |].
  destruct e; cbn [app cameras_attached]; apply IH.
Qed.

Lemma one_camera_per_render_app (w1 w2 : world) :
  forall n,
    one_camera_per_render (w1 ++ w2) n =
    one_camera_per_render w1 n && one_camera_per_render w2 (cameras_attached w1 n).
Proof.
  induction w1 as [| e w1 IH]; intros n; [reflexivity |].
  rewrite <- app_comm_cons.
  destruct e; cbn [cameras_attached one_camera_per_render]; rewrite IH;
    try reflexivity.
  destruct (n =? 1)%nat; reflexivity.
Qed.

Lemma cameras_attached_frames (output_dir : string) (c : vec3) (d : R) (N : nat)
    (range : list nat) :
  cameras_attached (flat_map (frame_events output_dir c d N) range) 0 = 0%nat /\
  one_camera_per_render (flat_map (frame_events output_dir c d N) range) 0 = true.
Proof.
  induction range as [| i rest [IH1 IH2]]; [split; reflexivity |].
  cbn [flat_map]. rewrite cameras_attached_app, one_camera_per_render_app.
  split; [exact IH1 | exact IH2].
Qed.

Lemma cameras_attached_failed_frame (E : env) (c : vec3) (d : R) (N j : nat) :
  cameras_attached (failed_frame_events E c d N j) 0 = 1%nat /\
  one_camera_per_render (failed_frame_events E c d N j) 0 = true.
Proof. unfold failed_frame_events. destruct (render_ok E j); split; reflexivity. Qed.

Lemma scene_of_frames (output_dir : string) (c : vec3) (d : R) (N k : nat) (tail : world) :
  cameras_attached
    (EvMkdir output_dir :: flat_map (frame_events output_dir c d N) (seq 0 k) ++ tail) 0
  = cameras_attached tail 0 /\
  one_camera_per_render
    (EvMkdir output_dir :: flat_map (frame_events output_dir c d N) (seq 0 k) ++ tail) 0
  = one_camera_per_render tail 0.
Proof.
  destruct (cameras_attached_frames output_dir c d N (seq 0 k)) as [H1 H2].
  cbn [cameras_attached one_camera_per_render].
  rewrite cameras_attached_app, one_camera_per_render_app, H1, H2. split; reflexivity.
Qed.

Lemma load_error_not_frame
    (float32_le : Byte.byte * Byte.byte * Byte.byte * Byte.byte -> R)
    (gltf : GLTF2) (e : error) :
  load_glb_with_pygltflib float32_le gltf = inl e ->
  forall j, e <> RenderFailure j /\ e <> ImageIOFailure j.
Proof.
  unfold load_glb_with_pygltflib, first_primitive, load_vertices,
    load_indices, bounds_message, view_data, frombuffer_float32, frombuffer_uint16,
    frombuffer_uint32, reshape3, subscript_opt, subscript, rbind.
  repeat match goal with
         | |- context [match ?x with _ => _ end] =>
             lazymatch x with
             | context [match _ with _ => _ end] => fail
             | _ => destruct x
             end
         end;
    intros H j; try discriminate H; injection H as <-; split; discriminate.
Qed.

(** X18: in every run, however it ends, each call of the renderer finds
    exactly one camera in the scene; a run that ends normally leaves no
    camera attached, while a run ended by a failing render or image save
    leaves the camera of the failing frame attached (the removal on line
    194 is skipped). *)
Theorem scene_holds_one_camera_per_render
    (float32_le : Byte.byte * Byte.byte * Byte.byte * Byte.byte -> R)
    (E : env) (gltf : GLTF2) (output_dir : string) (N : nat) :
  let run := render_glb_views float32_le E gltf output_dir N in
  one_camera_per_render (final_world run) 0 = true /\
  (outcome run = inr tt -> cameras_attached (final_world run) 0 = 0%nat) /\
  (forall j, outcome run = inl (RenderFailure j) \/ outcome run = inl (ImageIOFailure j) ->
             cameras_attached (final_world run) 0 = 1%nat).
Proof.
  intros run. subst run.
  pose proof (run_ends float32_le E gltf output_dir N) as Hend.
  set (r := outcome _) in *. set (w := final_world _) in *. clearbody r w.
  destruct Hend as [Hmk | e Hmk Hload | mesh Hmk Hload Hset | mesh Hmk Hload Hset Hb
                   | mesh b j Hmk Hload Hset Hb Hff | mesh b Hmk Hload Hset Hb Hff Hman
                   | mesh b Hmk Hload Hset Hb Hff Hman Hcl
                   | mesh b Hmk Hload Hset Hb Hff Hman Hcl].
  - split; [reflexivity |]. split; [discriminate | intros j [H | H]; discriminate].
  - split; [reflexivity |]. split; [discriminate |].
    intros j Hj. destruct (load_error_not_frame _ _ _ Hload j) as [H1 H2].
    destruct Hj as [[= Hj] | [= Hj]]; congruence.
  - split; [reflexivity |]. split; [discriminate | intros j [H | H]; discriminate].
  - split; [reflexivity |]. split; [discriminate | intros j [H | H]; discriminate].
  - destruct (scene_of_frames output_dir (center_of b) (camera_distance_of (size_of b)) N j
                (failed_frame_events E (center_of b) (camera_distance_of (size_of b)) N j))
      as [H1 H2].
    destruct (cameras_attached_failed_frame E (center_of b)
                (camera_distance_of (size_of b)) N j) as [H3 H4].
    rewrite H1, H2, H3, H4.
    split; [reflexivity |]. split; [discriminate | reflexivity].
  - rewrite <- (app_nil_r (flat_map _ _)).
    destruct (scene_of_frames output_dir (center_of b) (camera_distance_of (size_of b)) N N [])
      as [H1 H2].
    rewrite H2. split; [reflexivity |]. split; [discriminate | intros j [H | H]; discriminate].
  - match goal with
    | |- context [?l ++ [EvWriteManifest ?p ?m]] =>
        destruct (scene_of_frames output_dir (center_of b) (camera_distance_of (size_of b))
                    N N [EvWriteManifest p m]) as [H1 H2]
    end.
    rewrite H1, H2. split; [reflexivity |].
    split; [reflexivity | intros j [H | H]; discriminate].
  - match goal with
    | |- context [?l ++ [EvWriteManifest ?p ?m]] =>
        destruct (scene_of_frames output_dir (center_of b) (camera_distance_of (size_of b))
                    N N [EvWriteManifest p m]) as [H1 H2]
    end.
    rewrite H1, H2. split; [reflexivity |].
    split; [discriminate | intros j [H | H]; discriminate].
Qed.

Lemma save_failure_run :
  outcome (render_glb_views (fun _ => 0) env_save_fails_at_1 point_gltf "renders" 3)
  = inl (ImageIOFailure 1).
Proof. reflexivity. Qed.

Lemma scene_holds_one_camera_per_render_witness :
  cameras_attached
    (final_world (render_glb_views (fun _ => 0) env_save_fails_at_1 point_gltf "renders" 3)) 0
  = 1%nat.
Proof.
  apply (proj2 (proj2 (scene_holds_one_camera_per_render (fun _ => 0) env_save_fails_at_1
                         point_gltf "renders" 3)) 1%nat).
  right. exact save_failure_run.
Defined.

(** ** Runs that do not reach a frame *)

(** X19: with a view count of 0 the loop body never runs: when the asset
    loads, has bounds, and the directory, scene, manifest and cleanup calls
    succeed, the run ends normally having rendered and saved nothing, and
    the manifest it writes has camera_angle_x = pi/3 and no frames; whether
    render or save would succeed plays no part. *)
Theorem zero_views_write_an_empty_manifest
    (float32_le : Byte.byte * Byte.byte * Byte.byte * Byte.byte -> R)
    (E : env) (gltf : GLTF2) (output_dir : string) (mesh : Trimesh) (b : vec3 * vec3) :
  load_glb_with_pygltflib float32_le gltf = inr mesh ->
  bounds mesh = Some b ->
  mkdir_ok E = true -> setup_ok E = true -> manifest_ok E = true -> cleanup_ok E = true ->
  let run := render_glb_views float32_le E gltf output_dir 0 in
  outcome run = inr tt /\
  final_world run =
    [ EvMkdir output_dir;
      EvWriteManifest (path_join output_dir "transforms.json")
        {| camera_angle_x := PI / 3; frames := [] |} ] /\
  render_calls (final_world run) = [] /\
  saved_images (final_world run) = [].
Proof.
  intros Hload Hb Hmk Hset Hman Hcl run. subst run. unfold outcome, final_world.
  rewrite render_glb_views_run, Hmk, Hload, render_mesh_run, Hset, Hb.
  cbn [seq first_failure]. rewrite Hman, Hcl. repeat split.
Qed.

Lemma zero_views_write_an_empty_manifest_witness :
  outcome (render_glb_views (fun _ => 0) env_save_fails_at_1 point_gltf "renders" 0) = inr tt.
Proof.
  exact (proj1 (zero_views_write_an_empty_manifest (fun _ => 0) env_save_fails_at_1
                  point_gltf "renders" (mkTrimesh [vzero] [(0, 0, 0)%nat])
                  (fold_left vmin [] vzero, fold_left vmax [] vzero)
                  point_gltf_loads eq_refl eq_refl eq_refl eq_refl eq_refl)).
Defined.

(** X20: the output directory is created before the asset is read: every
    world a run leaves is empty, when the directory cannot be created, or
    starts with the creation of the directory; and when the asset fails to
    load the run ends with the loader's error, leaving the created
    directory and nothing else, whatever the view count. *)
Theorem failed_load_leaves_the_directory
    (float32_le : Byte.byte * Byte.byte * Byte.byte * Byte.byte -> R)
    (E : env) (gltf : GLTF2) (output_dir : string) (N : nat) :
  let run := render_glb_views float32_le E gltf output_dir N in
  (mkdir_ok E = false -> outcome run = inl DirectoryIOFailure /\ final_world run = []) /\
  (mkdir_ok E = true -> exists rest, final_world run = EvMkdir output_dir :: rest) /\
  (forall e, mkdir_ok E = true ->
             load_glb_with_pygltflib float32_le gltf = inl e ->
             outcome run = inl e /\ final_world run = [EvMkdir output_dir]).
Proof.
  intros run. subst run.
  split; [| split].
  - intros Hmk. unfold outcome, final_world. rewrite render_glb_views_run, Hmk.
    split; reflexivity.
  - intros Hmk.
    pose proof (run_ends float32_le E gltf output_dir N) as Hend.
    set (r := outcome _) in *. set (w := final_world _) in *. clearbody r w.
    destruct Hend; try congruence; eexists; reflexivity.
  - intros e Hmk Hload. unfold outcome, final_world.
    rewrite render_glb_views_run, Hmk, Hload. split; reflexivity.
Qed.

Lemma failed_load_leaves_the_directory_witness :
  final_world (render_glb_views (fun _ => 0) env_ok bare_gltf "renders" 5)
  = [EvMkdir "renders"].
Proof.
  refine (proj2 (proj2 (proj2 (failed_load_leaves_the_directory (fun _ => 0) env_ok
                                 bare_gltf "renders" 5)) ReshapeError _ _)).
  - reflexivity.
  - reflexivity.
Defined.

(** ** The entry point *)

(** X21: when the script's entry point ends normally it has saved exactly
    100 images, public/models/helmet/renders/image_0000.png to
    image_0099.png, all different, and then written one manifest,
    public/models/helmet/renders/transforms.json, with 100 frame records
    from ./image_0000.png to ./image_0099.png. *)
Theorem main_outputs
    (float32_le : Byte.byte * Byte.byte * Byte.byte * Byte.byte -> R)
    (E : env) (gltf : GLTF2) :
  outcome (main float32_le E gltf) = inr tt ->
  let w := final_world (main float32_le E gltf) in
  List.length (saved_images w) = 100%nat /\
  nth_error (saved_images w) 0 = Some "public/models/helmet/renders/image_0000.png"%string /\
  nth_error (saved_images w) 99 = Some "public/models/helmet/renders/image_0099.png"%string /\
  NoDup (saved_images w) /\
  exists m : manifest,
    manifest_writes w = [("public/models/helmet/renders/transforms.json"%string, m)] /\
    camera_angle_x m = PI / 3 /\
    List.length (frames m) = 100%nat /\
    option_map file_path (nth_error (frames m) 0) = Some "./image_0000.png"%string /\
    option_map file_path (nth_error (frames m) 99) = Some "./image_0099.png"%string.
Proof.
  intros Hok w. subst w. unfold main in *.
  pose proof (run_ends float32_le E gltf "public/models/helmet/renders" 100) as Hend.
  set (r := outcome _) in *. set (w := final_world _) in *. clearbody r w.
  destruct Hend as [Hmk | e Hmk Hload | mesh Hmk Hload Hset | mesh Hmk Hload Hset Hb
                   | mesh b j Hmk Hload Hset Hb Hff | mesh b Hmk Hload Hset Hb Hff Hman
                   | mesh b Hmk Hload Hset Hb Hff Hman Hcl
                   | mesh b Hmk Hload Hset Hb Hff Hman Hcl];
    try discriminate Hok.
  rewrite (saved_images_of_frames E) by reflexivity.
  rewrite manifest_writes_of_frames.
  split; [now rewrite length_map, length_seq |].
  split; [now rewrite nth_error_map_seq by lia |].
  split; [now rewrite nth_error_map_seq by lia |].
  split; [apply image_paths_NoDup |].
  eexists. split; [reflexivity |]. split; [reflexivity |]. cbn [frames].
  split; [now rewrite length_map, length_seq |].
  split; now rewrite nth_error_map_seq by lia.
Qed.

Lemma main_run_succeeds : outcome (main (fun _ => 0) env_ok point_gltf) = inr tt.
Proof. reflexivity. Qed.

Lemma main_outputs_witness :
  List.length (saved_images (final_world (main (fun _ => 0) env_ok point_gltf))) = 100%nat.
Proof.
  exact (proj1 (main_outputs (fun _ => 0) env_ok point_gltf main_run_succeeds)).
Defined.

(** ** The poses a manifest holds *)

Lemma camera_pose_last_row (c : vec3) (d : R) (N i : nat) :
  nth 3 (camera_pose c d N i) [] = [0; 0; 0; 1] /\
  col3 (camera_pose c d N i) 3 = camera_pos c d N i /\
  is_4x4 (camera_pose c d N i).
Proof.
  unfold camera_pose. rewrite look_at_columns.
  split; [reflexivity |]. split.
  - now destruct (camera_pos c d N i).
  - split; [reflexivity | repeat constructor].
Qed.

(** X22: whenever a run over a mesh of positive extent writes a manifest,
    every transform_matrix in it is a rigid camera pose: 4 rows of 4, last
    row (0, 0, 0, 1), a rotation block that is orthonormal with determinant
    +1, and a translation column at distance twice the extent from the
    center of the bounding volume. *)
Theorem manifest_holds_rigid_poses
    (float32_le : Byte.byte * Byte.byte * Byte.byte * Byte.byte -> R)
    (E : env) (gltf : GLTF2) (output_dir : string) (N : nat)
    (mesh : Trimesh) (b : vec3 * vec3) :
  load_glb_with_pygltflib float32_le gltf = inr mesh ->
  bounds mesh = Some b ->
  0 < size_of b ->
  Forall
    (fun pm : string * manifest =>
       Forall
         (fun fr : frame =>
            is_4x4 (transform_matrix fr) /\
            nth 3 (transform_matrix fr) [] = [0; 0; 0; 1] /\
            orthonormal (transform_matrix fr) /\
            norm (vsub (col3 (transform_matrix fr) 3) (center_of b)) = 2 * size_of b)
         (frames (snd pm)))
    (manifest_writes (final_world (render_glb_views float32_le E gltf output_dir N))).
Proof.
  intros Hload Hb Hs.
  apply Forall_forall. intros [p m] Hin. apply Forall_forall. intros fr Hfr.
  cbn [snd] in Hfr.
  assert (Hd : 0 < camera_distance_of (size_of b)) by (unfold camera_distance_of; lra).
  assert (Hrecord : forall i,
            let q := camera_pose (center_of b) (camera_distance_of (size_of b)) N i in
            is_4x4 q /\ nth 3 q [] = [0; 0; 0; 1] /\ orthonormal q /\
            norm (vsub (col3 q 3) (center_of b)) = 2 * size_of b).
  { intros i q. subst q.
    destruct (camera_pose_last_row (center_of b) (camera_distance_of (size_of b)) N i)
      as (Hrow & Hcol & Hshape).
    split; [exact Hshape |]. split; [exact Hrow |].
    split; [now apply orbit_poses_orthonormal |].
    rewrite Hcol, camera_on_sphere by lra. unfold camera_distance_of. ring. }
  pose proof (run_ends float32_le E gltf output_dir N) as Hend.
  set (r := outcome _) in *. set (w := final_world _) in *. clearbody r w.
  destruct Hend as [Hmk | e Hmk Hload' | mesh' Hmk Hload' Hset | mesh' Hmk Hload' Hset Hb'
                   | mesh' b' j Hmk Hload' Hset Hb' Hff | mesh' b' Hmk Hload' Hset Hb' Hff Hman
                   | mesh' b' Hmk Hload' Hset Hb' Hff Hman Hcl
                   | mesh' b' Hmk Hload' Hset Hb' Hff Hman Hcl];
    try (cbn in Hin; contradiction).
  - rewrite manifest_writes_of_frames, manifest_writes_failed_frame in Hin. contradiction.
  - rewrite <- (app_nil_r (flat_map _ _)) in Hin.
    rewrite manifest_writes_of_frames in Hin. contradiction.
  - assert (mesh' = mesh) as -> by congruence. assert (b' = b) as -> by congruence.
    rewrite manifest_writes_of_frames in Hin. cbn in Hin.
    destruct Hin as [[= <- <-] | []]. cbn [frames] in Hfr.
    apply in_map_iff in Hfr as (i & <- & _). apply Hrecord.
  - assert (mesh' = mesh) as -> by congruence. assert (b' = b) as -> by congruence.
    rewrite manifest_writes_of_frames in Hin. cbn in Hin.
    destruct Hin as [[= <- <-] | []]. cbn [frames] in Hfr.
    apply in_map_iff in Hfr as (i & <- & _). apply Hrecord.
Qed.

(** The unit triangle as an asset. *)

Ltac eval_Z :=
  repeat match goal with
         | |- context [Z.of_N ?a] =>
             let v := eval vm_compute in (Z.of_N a) in change (Z.of_N a) with v
         end;
  repeat match goal with
         | |- context [(?a =? ?b)%Z] =>
             let v := eval vm_compute in (a =? b)%Z in change (a =? b)%Z with v
         end;
  cbv iota;
  repeat match goal with
         | |- context [IZR (Z.add ?a ?b)] =>
             let v := eval vm_compute in (Z.add a b) in change (Z.add a b) with v
         | |- context [IZR (Z.modulo ?a ?b)] =>
             let v := eval vm_compute in (Z.modulo a b) in change (Z.modulo a b) with v
         | |- context [powerRZ ?x (Z.sub ?a ?b)] =>
             let v := eval vm_compute in (Z.sub a b) in change (Z.sub a b) with v
         end.

Lemma powerRZ_2_neg (p : positive) : powerRZ 2 (Z.neg p) = / IZR (2 ^ Z.pos p).
Proof. unfold powerRZ. rewrite pow_IZR. now rewrite positive_nat_Z. Qed.

Lemma binary32_le_zero : binary32_le (Byte.x00, Byte.x00, Byte.x00, Byte.x00) = 0.
Proof. unfold binary32_le. cbv zeta. eval_Z. ring. Qed.

Lemma binary32_le_one : binary32_le (Byte.x00, Byte.x00, Byte.x80, Byte.x3f) = 1.
Proof.
  unfold binary32_le. cbv zeta. eval_Z. rewrite powerRZ_2_neg.
  change (2 ^ 23)%Z with 8388608%Z. lra.
Qed.

Lemma unit_triangle_loads :
  load_glb_with_pygltflib binary32_le unit_triangle_gltf =
  inr (mkTrimesh [mkVec 0 0 0; mkVec 1 0 0; mkVec 0 1 0] [(0, 1, 2)%nat]).
Proof.
  assert (H : load_glb_with_pygltflib binary32_le unit_triangle_gltf =
              inr (mkTrimesh
                     [ mkVec (binary32_le (Byte.x00, Byte.x00, Byte.x00, Byte.x00))
                             (binary32_le (Byte.x00, Byte.x00, Byte.x00, Byte.x00))
                             (binary32_le (Byte.x00, Byte.x00, Byte.x00, Byte.x00));
                       mkVec (binary32_le (Byte.x00, Byte.x00, Byte.x80, Byte.x3f))
                             (binary32_le (Byte.x00, Byte.x00, Byte.x00, Byte.x00))
                             (binary32_le (Byte.x00, Byte.x00, Byte.x00, Byte.x00));
                       mkVec (binary32_le (Byte.x00, Byte.x00, Byte.x00, Byte.x00))
                             (binary32_le (Byte.x00, Byte.x00, Byte.x80, Byte.x3f))
                             (binary32_le (Byte.x00, Byte.x00, Byte.x00, Byte.x00)) ]
                     [(0, 1, 2)%nat])) by reflexivity.
  rewrite H, binary32_le_zero, binary32_le_one. reflexivity.
Qed.

Lemma unit_triangle_bounds :
  bounds (mkTrimesh [mkVec 0 0 0; mkVec 1 0 0; mkVec 0 1 0] [(0, 1, 2)%nat])
  = Some (mkVec 0 0 0, mkVec 1 1 0).
Proof.
  unfold bounds, vmin, vmax; simpl.
  rewrite !Rmin_IZR, !Rmax_IZR. reflexivity.
Qed.

Lemma unit_triangle_size : 0 < size_of (mkVec 0 0 0, mkVec 1 1 0).
Proof.
  unfold size_of. apply norm_pos. intros H. apply (f_equal vx) in H. simpl in H. lra.
Qed.

Lemma manifest_holds_rigid_poses_witness :
  Forall
    (fun pm : string * manifest =>
       Forall
         (fun fr : frame =>
            is_4x4 (transform_matrix fr) /\
            nth 3 (transform_matrix fr) [] = [0; 0; 0; 1] /\
            orthonormal (transform_matrix fr) /\
            norm (vsub (col3 (transform_matrix fr) 3) (center_of (mkVec 0 0 0, mkVec 1 1 0)))
              = 2 * size_of (mkVec 0 0 0, mkVec 1 1 0))
         (frames (snd pm)))
    (manifest_writes
       (final_world (render_glb_views binary32_le env_ok unit_triangle_gltf "renders" 2))).
Proof.
  exact (manifest_holds_rigid_poses binary32_le env_ok unit_triangle_gltf "renders" 2
           (mkTrimesh [mkVec 0 0 0; mkVec 1 0 0; mkVec 0 1 0] [(0, 1, 2)%nat])
           (mkVec 0 0 0, mkVec 1 1 0)
           unit_triangle_loads unit_triangle_bounds unit_triangle_size).
Defined.

Lemma view_data_is_clamped_witness :
  exists data : list Byte.byte,
    view_data (Some [Byte.x00; Byte.x00; Byte.x00; Byte.x00; Byte.x00; Byte.x00])
              (mkBufferView 4 6) = inr data /\
    List.length data = 2%nat.
Proof.
  destruct (view_data_is_clamped
              [Byte.x00; Byte.x00; Byte.x00; Byte.x00; Byte.x00; Byte.x00]
              (mkBufferView 4 6)) as (data & H1 & H2 & _).
  exists data. split; [exact H1 | exact H2].
Defined.

Lemma image_names_never_collide_witness : image_name 3 <> image_name 7.
Proof.
  intros H.
  apply (proj1 (image_names_never_collide (fun _ => 0) env_ok point_gltf "renders" 8)
           3%nat 7%nat) in H.
  discriminate H.
Defined.
